(** * Disaster risk calculator: rating bands, probability buckets and the
      ZIP lookup session of [src/App.jsx]

    The modules, in order:
    - [JS]: the fragment of JavaScript values the code computes with
      (numbers and their comparisons, strings as UTF-16 code units, [trim],
      the ZIP regular expression, [substring], [join]);
    - [Rating]: [RISK_RATINGS], [getRiskRating] and [scoreToOdds];
    - [Data]: what the two services answer, the location object and the
      state of the component;
    - [Proc]: an [async] function as a finite tree of setter calls and
      awaited requests, and its run against given services;
    - [Net]: [fetchNRIData] and [zipToCountyFips];
    - [App]: [handleSearch], [handleKeyDown], the input's [onChange] and
      the event loop that starts and resumes sessions;
    - [Spec], [Samples]: the vocabulary of the statements and sample
      services.

    The theorems follow: first the two pure tables, then the two service
    calls, then one session of [handleSearch], then sessions that overlap. *)

From Stdlib Require Import ZArith NArith QArith Qround Lqa List String Ascii
  Bool Lia DecimalString.
Import ListNotations.

Set Implicit Arguments.

(* ================================================================== *)
(** * JavaScript values *)
(* ================================================================== *)

Module JS.

(** ** Numbers

    A JavaScript number is an IEEE double: a finite value, one of the two
    infinities, or NaN.  Every finite double is a rational, and the code
    only compares numbers, so finite values are rationals compared exactly.
    (Negative zero compares like zero and is not kept apart.) *)

Inductive number : Type :=
| NaN
| NegInf
| Fin (q : Q)
| PosInf.

Definition Qlt_bool (a b : Q) : bool :=
  match (a ?= b)%Q with Lt => true | _ => false end.

(** [a < b]: false as soon as one side is NaN. *)
Definition num_lt (a b : number) : bool :=
  match a, b with
  | NaN, _ | _, NaN => false
  | NegInf, NegInf => false
  | NegInf, _ => true
  | Fin _, NegInf => false
  | Fin x, Fin y => Qlt_bool x y
  | Fin _, PosInf => true
  | PosInf, _ => false
  end.

(** [a <= b]: false as soon as one side is NaN. *)
Definition num_le (a b : number) : bool :=
  match a, b with
  | NaN, _ | _, NaN => false
  | NegInf, _ => true
  | Fin _, NegInf => false
  | Fin x, Fin y => Qle_bool x y
  | Fin _, PosInf => true
  | PosInf, PosInf => true
  | PosInf, _ => false
  end.

(** [ToNumber] of a property that may be missing: [undefined] is NaN. *)
Definition to_number (o : option number) : number :=
  match o with Some n => n | None => NaN end.

(** [parseFloat(n)] for a number [n]: the argument is printed with the
    shortest digits that read back as the same double, then read back. *)
Definition parseFloat (n : number) : number := n.

(** ** Strings

    A JavaScript string is a sequence of UTF-16 code units.  Literals of
    the source that the code concatenates or compares are ASCII and are
    written with [lit]. *)

Definition jsstring : Type := list N.

Fixpoint lit (s : string) : jsstring :=
  match s with
  | EmptyString => []
  | String c s' => N_of_ascii c :: lit s'
  end.

(** [s] is truthy: a string is falsy exactly when it is empty. *)
Definition truthy (s : jsstring) : bool :=
  match s with [] => false | _ :: _ => true end.

(** [a || b] on strings. *)
Definition or_else (a b : jsstring) : jsstring := if truthy a then a else b.

(** [a?.p || b] where the left side may be [undefined]. *)
Definition opt_or_else (a : option jsstring) (b : jsstring) : jsstring :=
  match a with Some s => or_else s b | None => b end.

(** White space and line terminators, the code units [trim] strips:
    TAB, LF, VT, FF, CR, SPACE, NBSP, the Unicode space separators,
    LS, PS and the byte order mark. *)
Definition isWhiteSpace (c : N) : bool :=
  ((9 <=? c) && (c <=? 13) || (c =? 32) || (c =? 160) || (c =? 5760)
   || (8192 <=? c) && (c <=? 8202) || (c =? 8232) || (c =? 8233)
   || (c =? 8239) || (c =? 8287) || (c =? 12288) || (c =? 65279))%N.

Fixpoint trimStart (s : jsstring) : jsstring :=
  match s with
  | [] => []
  | c :: s' => if isWhiteSpace c then trimStart s' else s
  end.

Definition trimEnd (s : jsstring) : jsstring := rev (trimStart (rev s)).

(** [s.trim()] *)
Definition trim (s : jsstring) : jsstring := trimEnd (trimStart s).

(** [\d]: the ten ASCII digits only. *)
Definition isDigit (c : N) : bool := ((48 <=? c) && (c <=? 57))%N.

(** [/^\d{5}$/.test(s)]: without the [m] flag [^] and [$] match only at
    the two ends of the input, so the whole string is five digits. *)
Definition test_zip (s : jsstring) : bool :=
  match s with
  | [a; b; c; d; e] =>
      isDigit a && isDigit b && isDigit c && isDigit d && isDigit e
  | _ => false
  end.

(** [s.replace(/\D/g, "")]: drop every code unit that is not a digit. *)
Definition strip_non_digits (s : jsstring) : jsstring := filter isDigit s.

(** [s.slice(0, n)] for [0 <= n]. *)
Definition slice0 (n : nat) (s : jsstring) : jsstring := firstn n s.

(** [s.substring(a, b)] for [0 <= a <= b]; both ends are clamped to the
    length of [s]. *)
Definition substring (a b : nat) (s : jsstring) : jsstring :=
  firstn (b - a) (skipn a s).

(** [xs.join(sep)] *)
Fixpoint join (sep : jsstring) (xs : list jsstring) : jsstring :=
  match xs with
  | [] => []
  | [x] => x
  | x :: xs' => x ++ sep ++ join sep xs'
  end.

(** Decimal digits of a non-negative integer, as [`${n}`] prints it. *)
Definition of_N (n : N) : jsstring := lit (NilZero.string_of_uint (N.to_uint n)).

End JS.

Import JS.

(* ================================================================== *)
(** * Rating bands and probability buckets *)
(* ================================================================== *)

Module Rating.

Local Open Scope string_scope.

(** The value passed as [score]: [null], [undefined] or a number. *)
Inductive score : Type :=
| SNull
| SUndefined
| SNum (n : number).

(** An entry of [RISK_RATINGS]; the "No Data" object has no [max]. *)
Record rating : Type := {
  label : string;
  max : option number;
  color : string;
  bg : string
}.

Definition RISK_RATINGS : list rating := [
  {| label := "Very Low"; max := Some (Fin 15); color := "#4a8c6a"; bg := "#eef6f1" |};
  {| label := "Relatively Low"; max := Some (Fin 30); color := "#6aab7b"; bg := "#f0f7f2" |};
  {| label := "Relatively Moderate"; max := Some (Fin 50); color := "#c4a24d"; bg := "#faf6ec" |};
  {| label := "Relatively High"; max := Some (Fin 70); color := "#c48a4d"; bg := "#f9f3ec" |};
  {| label := "Very High"; max := Some (Fin 100); color := "#b85c4a"; bg := "#f7efed" |}
].

Definition NO_DATA : rating :=
  {| label := "No Data"; max := None; color := "#95a5a6"; bg := "#f0f0f0" |}.

(** [score === null || score === undefined || score < 0] *)
Definition absent_or_negative (s : score) : bool :=
  match s with
  | SNull | SUndefined => true
  | SNum n => num_lt n (Fin 0)
  end.

(** [for (const r of rs) if (score <= r.max) return r;] *)
Fixpoint first_band (n : number) (rs : list rating) : option rating :=
  match rs with
  | [] => None
  | r :: rs' =>
      if num_le n (to_number (max r)) then Some r else first_band n rs'
  end.

Definition getRiskRating (s : score) : rating :=
  match s with
  | SNull | SUndefined => NO_DATA
  | SNum n =>
      if num_lt n (Fin 0) then NO_DATA
      else match first_band n RISK_RATINGS with
           | Some r => r
           | None => nth (List.length RISK_RATINGS - 1) RISK_RATINGS NO_DATA
           end
  end.

(** The object [scoreToOdds] returns; the insufficient-data object has no
    [odds] property.  An [odds] literal stands for its decimal value. *)
Record odds_descriptor : Type := {
  text : string;
  detail : string;
  odds : option Q
}.

Definition scoreToOdds (s : score) (hazardKey : string) : odds_descriptor :=
  match s with
  | SNull | SUndefined => {| text := "Insufficient data"; detail := ""; odds := None |}
  | SNum n =>
      if num_lt n (Fin 0) then
        {| text := "Insufficient data"; detail := ""; odds := None |}
      else if num_le n (Fin 5) then
        {| text := "< 0.1%"; detail := "Less than 1 in 1,000 chance per year"; odds := Some 0.001 |}
      else if num_le n (Fin 15) then
        {| text := "~0.1–0.5%"; detail := "Roughly 1 in 200 to 1 in 1,000 per year"; odds := Some 0.003 |}
      else if num_le n (Fin 30) then
        {| text := "~0.5–2%"; detail := "Roughly 1 in 50 to 1 in 200 per year"; odds := Some 0.01 |}
      else if num_le n (Fin 50) then
        {| text := "~2–5%"; detail := "Roughly 1 in 20 to 1 in 50 per year"; odds := Some 0.035 |}
      else if num_le n (Fin 70) then
        {| text := "~5–15%"; detail := "Roughly 1 in 7 to 1 in 20 per year"; odds := Some 0.1 |}
      else if num_le n (Fin 85) then
        {| text := "~15–30%"; detail := "Roughly 1 in 3 to 1 in 7 per year"; odds := Some 0.225 |}
      else
        {| text := "> 30%"; detail := "Greater than 1 in 3 chance per year"; odds := Some 0.4 |}
  end.

(** The [key] of each entry of [HAZARD_CONFIG], in source order. *)
Definition HAZARD_KEYS : list string := ["ERQK"; "HRCN"; "TRND"; "RFLD"; "WFIR"].

End Rating.

Import Rating.

(* ================================================================== *)
(** * Data exchanged with the two services and kept by the component *)
(* ================================================================== *)

Module Data.

(** A thrown [Error]; only its [message] is ever read. *)
Record js_error : Type := { message : jsstring }.

(** [new Error("...")] *)
Definition Error (m : string) : js_error := {| message := lit m |}.

(** How an awaited promise settles. *)
Inductive outcome (A : Type) : Type :=
| Resolved (a : A)
| Rejected (e : js_error).

Arguments Rejected {A} e.

(** What [fetch] resolves to: the HTTP status and the promise [json()]. *)
Record response (B : Type) : Type := {
  status : N;
  json : outcome B
}.

(** [response.ok]: the status is in the range 200-299. *)
Definition ok {B : Type} (r : response B) : bool :=
  ((200 <=? status r) && (status r <=? 299))%N.

(** ** The geocoder's answer

    The records carry the properties the code reads.  A property the code
    reads through [?.] or tests for falsiness before use is optional
    ([None] is [undefined] or [null]); the others are read directly. *)

Record county_geo : Type := {
  STATE : jsstring;
  COUNTY : jsstring;
  NAME : jsstring
}.

Record geographies_t : Type := { Counties : option (list county_geo) }.

Record address_components : Type := { state : option jsstring }.

Record coordinates_t : Type := { x : number; y : number }.

Record address_match : Type := {
  geographies : option geographies_t;
  addressComponents : option address_components;
  coordinates : coordinates_t;
  matchedAddress : jsstring
}.

Record geo_result : Type := { addressMatches : option (list address_match) }.

Record geo_data : Type := { result : option geo_result }.

(** The parsed body; [None] is a body that parses to [null]. *)
Definition geo_body : Type := option geo_data.

(** ** The hazard index's answer *)

Inductive field : Type :=
| FNull
| FNum (n : number)
| FStr (s : jsstring).

(** One county record: its properties in the order received. *)
Definition nri_record : Type := list (string * field).

Record nri_data : Type := { NriCountyData : option (list nri_record) }.

(** ** The object [zipToCountyFips] returns *)

Record county_location : Type := {
  fips : jsstring;
  countyName : jsstring;
  stateName : option jsstring;
  lat : number;
  lng : number;
  matchedAddress' : jsstring
}.

(** ** The component's state: one slot per [useState] *)

Record app_state : Type := {
  zipCode : jsstring;
  loading : bool;
  error : option jsstring;
  locationInfo : option county_location;
  nriData : option nri_record;
  expandedHazard : option string;
  hasSearched : bool
}.

(** The initial values given to [useState]. *)
Definition initial_state : app_state :=
  {| zipCode := []; loading := false; error := None; locationInfo := None;
     nriData := None; expandedHazard := None; hasSearched := false |}.

(** A call of one of the state setters. *)
Inductive setter : Type :=
| setZipCode (s : jsstring)
| setLoading (b : bool)
| setError (e : option jsstring)
| setLocationInfo (l : option county_location)
| setNriData (r : option nri_record)
| setExpandedHazard (h : option string)
| setHasSearched (b : bool).

Definition apply_setter (u : setter) (st : app_state) : app_state :=
  match u with
  | setZipCode s =>
      {| zipCode := s; loading := loading st; error := error st;
         locationInfo := locationInfo st; nriData := nriData st;
         expandedHazard := expandedHazard st; hasSearched := hasSearched st |}
  | setLoading b =>
      {| zipCode := zipCode st; loading := b; error := error st;
         locationInfo := locationInfo st; nriData := nriData st;
         expandedHazard := expandedHazard st; hasSearched := hasSearched st |}
  | setError e =>
      {| zipCode := zipCode st; loading := loading st; error := e;
         locationInfo := locationInfo st; nriData := nriData st;
         expandedHazard := expandedHazard st; hasSearched := hasSearched st |}
  | setLocationInfo l =>
      {| zipCode := zipCode st; loading := loading st; error := error st;
         locationInfo := l; nriData := nriData st;
         expandedHazard := expandedHazard st; hasSearched := hasSearched st |}
  | setNriData r =>
      {| zipCode := zipCode st; loading := loading st; error := error st;
         locationInfo := locationInfo st; nriData := r;
         expandedHazard := expandedHazard st; hasSearched := hasSearched st |}
  | setExpandedHazard h =>
      {| zipCode := zipCode st; loading := loading st; error := error st;
         locationInfo := locationInfo st; nriData := nriData st;
         expandedHazard := h; hasSearched := hasSearched st |}
  | setHasSearched b =>
      {| zipCode := zipCode st; loading := loading st; error := error st;
         locationInfo := locationInfo st; nriData := nriData st;
         expandedHazard := expandedHazard st; hasSearched := b |}
  end.

End Data.

Import Data.

(* ================================================================== *)
(** * Asynchronous code as a tree of effects *)
(* ================================================================== *)

Module Proc.

(** An [async] function body: it returns, throws, calls a state setter and
    goes on, or awaits a [fetch] to one of the two services and goes on with
    what the promise settles to.  The trees are finite: no function of the
    source loops around an [await]. *)
Inductive proc (A : Type) : Type :=
| Ret (a : A)
| Throw (e : js_error)
| Act (u : setter) (k : proc A)
| FetchGeo (url : jsstring) (k : outcome (response geo_body) -> proc A)
| FetchNri (url : jsstring) (k : outcome (response nri_data) -> proc A).

Arguments Throw {A} e.
Arguments Act {A} u k.
Arguments FetchGeo {A} url k.
Arguments FetchNri {A} url k.

Fixpoint bind {A B : Type} (p : proc A) (f : A -> proc B) : proc B :=
  match p with
  | Ret a => f a
  | Throw e => Throw e
  | Act u k => Act u (bind k f)
  | FetchGeo url k => FetchGeo url (fun o => bind (k o) f)
  | FetchNri url k => FetchNri url (fun o => bind (k o) f)
  end.

(** [try { p } catch (err) { h err }] *)
Fixpoint try_catch {A : Type} (p : proc A) (h : js_error -> proc A) : proc A :=
  match p with
  | Ret a => Ret a
  | Throw e => h e
  | Act u k => Act u (try_catch k h)
  | FetchGeo url k => FetchGeo url (fun o => try_catch (k o) h)
  | FetchNri url k => FetchNri url (fun o => try_catch (k o) h)
  end.

(** [try { p } finally { f }]: [f] runs on both exits and the exit of [p]
    is kept, unless [f] itself throws. *)
Fixpoint try_finally {A : Type} (p : proc A) (f : proc unit) : proc A :=
  match p with
  | Ret a => bind f (fun _ => Ret a)
  | Throw e => bind f (fun _ => Throw e)
  | Act u k => Act u (try_finally k f)
  | FetchGeo url k => FetchGeo url (fun o => try_finally (k o) f)
  | FetchNri url k => FetchNri url (fun o => try_finally (k o) f)
  end.

(** [await promise] once the promise has settled. *)
Definition await {A : Type} (o : outcome A) : proc A :=
  match o with
  | Resolved a => Ret a
  | Rejected e => Throw e
  end.

Definition call (u : setter) : proc unit := Act u (Ret tt).

Module Notations.

Notation "x <- p ;; q" := (bind p (fun x => q))
  (at level 61, p at next level, right associativity).

Notation "p ;; q" := (bind p (fun _ => q))
  (at level 61, right associativity).

End Notations.

(** ** Running a tree against given services *)

(** The two services: what each request settles to. *)
Record env : Type := {
  geocoder : jsstring -> outcome (response geo_body);
  fema : jsstring -> outcome (response nri_data)
}.

(** What a run does, in order. *)
Inductive event : Type :=
| EvSet (u : setter)
| EvGeo (url : jsstring)
| EvNri (url : jsstring).

(** How a run ends. *)
Inductive exit (A : Type) : Type :=
| Returned (a : A)
| Thrown (e : js_error).

Arguments Thrown {A} e.

(** [run E p st]: the exit of [p], the state it leaves and its events. *)
Fixpoint run {A : Type} (E : env) (p : proc A) (st : app_state)
  : exit A * app_state * list event :=
  match p with
  | Ret a => (Returned a, st, [])
  | Throw e => (Thrown e, st, [])
  | Act u k =>
      let '(r, st', tr) := run E k (apply_setter u st) in
      (r, st', EvSet u :: tr)
  | FetchGeo url k =>
      let '(r, st', tr) := run E (k (geocoder E url)) st in
      (r, st', EvGeo url :: tr)
  | FetchNri url k =>
      let '(r, st', tr) := run E (k (fema E url)) st in
      (r, st', EvNri url :: tr)
  end.

Definition exit_of {A : Type} (x : exit A * app_state * list event) : exit A :=
  fst (fst x).
Definition state_of {A : Type} (x : exit A * app_state * list event) : app_state :=
  snd (fst x).
Definition trace_of {A : Type} (x : exit A * app_state * list event) : list event :=
  snd x.

(** The requests of a trace, in order. *)
Definition is_request (e : event) : bool :=
  match e with EvSet _ => false | EvGeo _ | EvNri _ => true end.

Definition requests (tr : list event) : list event := filter is_request tr.

Definition is_nri (e : event) : bool :=
  match e with EvNri _ => true | _ => false end.

End Proc.

Import Proc.
Import Proc.Notations.

(* ================================================================== *)
(** * The two service calls *)
(* ================================================================== *)

Module Net.

Local Open Scope string_scope.

Definition NRI_BASE : jsstring := lit "https://www.fema.gov/api/open/v1/NriCountyData".

Definition NRI_FIELDS : list jsstring := map lit [
  "county"; "state";
  "ERQK_RISKS"; "ERQK_RISKR"; "ERQK_EALS"; "ERQK_EALR"; "ERQK_EXPA"; "ERQK_APTS";
  "HRCN_RISKS"; "HRCN_RISKR"; "HRCN_EALS"; "HRCN_EALR"; "HRCN_EXPA"; "HRCN_APTS";
  "TRND_RISKS"; "TRND_RISKR"; "TRND_EALS"; "TRND_EALR"; "TRND_EXPA"; "TRND_APTS";
  "RFLD_RISKS"; "RFLD_RISKR"; "RFLD_EALS"; "RFLD_EALR"; "RFLD_EXPA"; "RFLD_APTS";
  "WFIR_RISKS"; "WFIR_RISKR"; "WFIR_EALS"; "WFIR_EALR"; "WFIR_EXPA"; "WFIR_APTS";
  "RISK_SCORE"; "RISK_RATNG";
  "EAL_SCORE"; "EAL_RATNG";
  "SOVI_SCORE"; "SOVI_RATNG";
  "RESL_SCORE"; "RESL_RATNG";
  "stateCode"; "countyCode"
].

(** The request [fetchNRIData] builds for a county. *)
Definition nri_url (countyFips : jsstring) : jsstring :=
  let stateCode := substring 0 2 countyFips in
  let countyCode := substring 2 5 countyFips in
  let fields := join (lit ",") NRI_FIELDS in
  (NRI_BASE ++ lit "?$filter=stateCode eq '" ++ stateCode
   ++ lit "' and countyCode eq '" ++ countyCode
   ++ lit "'&$select=" ++ fields)%list.

Definition FEMA_API_ERROR (st : N) : js_error :=
  {| message := (lit "FEMA API error: " ++ of_N st)%list |}.

Definition NO_NRI_DATA : js_error := Error "No NRI data found for this county.".

Definition fetchNRIData (countyFips : jsstring) : proc nri_record :=
  FetchNri (nri_url countyFips) (fun settled =>
    response <- await settled ;;
    if negb (ok response) then Throw (FEMA_API_ERROR (status response))
    else
      data <- await (json response) ;;
      match NriCountyData data with
      | None | Some [] => Throw NO_NRI_DATA
      | Some (first :: _) => Ret first
      end).

(** The request [zipToCountyFips] builds for a ZIP code. *)
Definition geocode_url (zip : jsstring) : jsstring :=
  (lit "https://geocoding.geo.census.gov/geocoder/geographies/onelineaddress?address="
   ++ zip
   ++ lit "&benchmark=Public_AR_Current&vintage=Current_Current&format=json")%list.

Definition GEOCODING_UNAVAILABLE : js_error := Error "Geocoding service unavailable".

Definition NO_LOCATION : js_error :=
  Error "Could not find location for this ZIP code. Please check and try again.".

Definition NO_COUNTY : js_error :=
  Error "Could not determine county for this ZIP code.".

(** [data?.result?.addressMatches] *)
Definition matches_of (data : geo_body) : option (list address_match) :=
  match data with
  | None => None
  | Some d => match result d with
              | None => None
              | Some r => addressMatches r
              end
  end.

(** [geographies?.Counties] *)
Definition counties_of (g : option geographies_t) : option (list county_geo) :=
  match g with
  | None => None
  | Some g' => Counties g'
  end.

(** [match.addressComponents?.state] *)
Definition state_of_match (m : address_match) : option jsstring :=
  match addressComponents m with
  | None => None
  | Some c => state c
  end.

(** The object built from the first match and its first county. *)
Definition make_location (match_ : address_match) (county : county_geo)
  : county_location :=
  let stateFips := STATE county in
  let countyFips := COUNTY county in
  let fullFips := (stateFips ++ countyFips)%list in
  let countyName := NAME county in
  let stateName := opt_or_else (state_of_match match_) (STATE county) in
  {| fips := fullFips;
     countyName := countyName;
     stateName := state_of_match match_;
     lat := parseFloat (y (coordinates match_));
     lng := parseFloat (x (coordinates match_));
     matchedAddress' := matchedAddress match_ |}.

Definition zipToCountyFips (zip : jsstring) : proc county_location :=
  FetchGeo (geocode_url zip) (fun settled =>
    response <- await settled ;;
    if negb (ok response) then Throw GEOCODING_UNAVAILABLE
    else
      data <- await (json response) ;;
      match matches_of data with
      | None | Some [] => Throw NO_LOCATION
      | Some (match_ :: _) =>
          match counties_of (geographies match_) with
          | None | Some [] => Throw NO_COUNTY
          | Some (county :: _) => Ret (make_location match_ county)
          end
      end).

End Net.

Import Net.

(* ================================================================== *)
(** * The component *)
(* ================================================================== *)

Module App.

Local Open Scope string_scope.

Definition INVALID_ZIP : jsstring := lit "Please enter a valid 5-digit US ZIP code.".

Definition GENERIC_ERROR : jsstring := lit "An error occurred. Please try again.".

(** The body of [try { ... }] in [handleSearch]. *)
Definition lookup (cleaned : jsstring) : proc unit :=
  location <- zipToCountyFips cleaned ;;
  call (setLocationInfo (Some location)) ;;
  nri <- fetchNRIData (fips location) ;;
  call (setNriData (Some nri)).

(** The [catch (err)] clause of [handleSearch]. *)
Definition on_error (err : js_error) : proc unit :=
  call (setError (Some (or_else (message err) GENERIC_ERROR))).

(** [handleSearch], closed over the [zipCode] of the current render. *)
Definition handleSearch (zipCode : jsstring) : proc unit :=
  let cleaned := trim zipCode in
  if negb (test_zip cleaned) then
    call (setError (Some INVALID_ZIP))
  else
    call (setLoading true) ;;
    call (setError None) ;;
    call (setNriData None) ;;
    call (setLocationInfo None) ;;
    call (setExpandedHazard None) ;;
    call (setHasSearched true) ;;
    try_finally
      (try_catch (lookup cleaned) on_error)
      (call (setLoading false)).

(** [handleKeyDown] *)
Definition handleKeyDown (key : jsstring) (zipCode : jsstring) : proc unit :=
  if list_eq_dec N.eq_dec key (lit "Enter") then handleSearch zipCode
  else Ret tt.

(** The [onChange] handler of the input. *)
Definition onChange (value : jsstring) : proc unit :=
  call (setZipCode (slice0 5 (strip_non_digits value))).

(** The results block is rendered when
    [!loading && nriData && locationInfo]. *)
Definition results_shown (st : app_state) : option (nri_record * county_location) :=
  if loading st then None
  else match nriData st, locationInfo st with
       | Some r, Some l => Some (r, l)
       | _, _ => None
       end.

(** The error box is rendered when [error] is a non-empty string. *)
Definition error_shown (st : app_state) : option jsstring :=
  match error st with
  | Some m => if truthy m then Some m else None
  | None => None
  end.

(** ** The event loop

    A session of [handleSearch] is suspended at each [await] of a request
    and resumed when the request settles.  The component holds its state
    and the suspended sessions; user actions and settled requests arrive
    one at a time. *)

Inductive suspended : Type :=
| AwaitGeo (url : jsstring) (k : outcome (response geo_body) -> proc unit)
| AwaitNri (url : jsstring) (k : outcome (response nri_data) -> proc unit).

(** Run a session up to its next [await] or to its end. *)
Fixpoint advance (p : proc unit) (st : app_state) : app_state * option suspended :=
  match p with
  | Ret _ => (st, None)
  | Throw _ => (st, None)
  | Act u k => advance k (apply_setter u st)
  | FetchGeo url k => (st, Some (AwaitGeo url k))
  | FetchNri url k => (st, Some (AwaitNri url k))
  end.

Record world : Type := {
  ui : app_state;
  inflight : list suspended
}.

Definition initial_world : world := {| ui := initial_state; inflight := [] |}.

Inductive input : Type :=
| Typed (value : jsstring)
| Click
| KeyDown (key : jsstring)
| GeoSettled (i : nat) (o : outcome (response geo_body))
| NriSettled (i : nat) (o : outcome (response nri_data)).

(** Start a handler in the current state. *)
Definition start (p : proc unit) (w : world) : world :=
  let '(st, s) := advance p (ui w) in
  {| ui := st;
     inflight := match s with
                 | Some t => (inflight w ++ [t])%list
                 | None => inflight w
                 end |}.

(** Remove the [i]-th suspended session. *)
Fixpoint remove_nth {A : Type} (i : nat) (l : list A) : list A :=
  match i, l with
  | _, [] => []
  | O, _ :: l' => l'
  | S i', a :: l' => a :: remove_nth i' l'
  end.

Definition resume (i : nat) (p : proc unit) (w : world) : world :=
  start p {| ui := ui w; inflight := remove_nth i (inflight w) |}.

(** One turn of the event loop.  The button carries [disabled={loading}],
    and a disabled button delivers no click; the input's [onKeyDown] and
    [onChange] are always attached. *)
Definition step (w : world) (i : input) : world :=
  match i with
  | Typed value => start (onChange value) w
  | Click => if loading (ui w) then w else start (handleSearch (zipCode (ui w))) w
  | KeyDown key => start (handleKeyDown key (zipCode (ui w))) w
  | GeoSettled n o =>
      match nth_error (inflight w) n with
      | Some (AwaitGeo _ k) => resume n (k o) w
      | _ => w
      end
  | NriSettled n o =>
      match nth_error (inflight w) n with
      | Some (AwaitNri _ k) => resume n (k o) w
      | _ => w
      end
  end.

Definition steps (w : world) (ins : list input) : world := fold_left step ins w.

(** The answer of the services [E] to the oldest suspended session. *)
Definition answer (E : env) (w : world) : option input :=
  match inflight w with
  | [] => None
  | AwaitGeo url _ :: _ => Some (GeoSettled 0 (geocoder E url))
  | AwaitNri url _ :: _ => Some (NriSettled 0 (fema E url))
  end.

(** Let the services answer, oldest request first, at most [fuel] times. *)
Fixpoint drain (E : env) (fuel : nat) (w : world) : world :=
  match fuel with
  | O => w
  | S fuel' =>
      match answer E w with
      | Some i => drain E fuel' (step w i)
      | None => w
      end
  end.

(** A submission made while [loading] is set is refused when it leaves the
    component as it was. *)
Definition refused (w : world) (i : input) : Prop := step w i = w.

End App.

Import App.

(* ================================================================== *)
(** * Vocabulary of the statements *)
(* ================================================================== *)

Module Spec.

(** A string of exactly five ASCII digits. *)
Definition ascii_digit (c : N) : Prop := (48 <= c <= 57)%N.

Definition five_digits (s : jsstring) : Prop :=
  List.length s = 5%nat /\ Forall ascii_digit s.

(** A score that is absent, and a score that is negative. *)
Definition absent (s : score) : Prop := s = SNull \/ s = SUndefined.

Definition negative (s : score) : Prop :=
  s = SNum NegInf \/ exists q : Q, (q < 0)%Q /\ s = SNum (Fin q).

(** The [i]-th of the five ordered tiers. *)
Definition tier (i : nat) : rating := nth i RISK_RATINGS NO_DATA.

(** The run of one submission of [z] ends with the validation message as
    the error and has sent no request. *)
Definition rejected_by_validation (E : env) (st : app_state) (z : jsstring) : Prop :=
  error (state_of (run E (handleSearch z) st)) = Some INVALID_ZIP /\
  requests (trace_of (run E (handleSearch z) st)) = [].

(** The run of one submission of [z] reaches the location step. *)
Definition resolver_invoked (E : env) (st : app_state) (z : jsstring) : Prop :=
  exists zip, In (EvGeo (geocode_url zip)) (trace_of (run E (handleSearch z) st)).

(** The setter calls that discard the previous session, in source order. *)
Definition reset_calls : list event :=
  [EvSet (setLoading true); EvSet (setError None); EvSet (setNriData None);
   EvSet (setLocationInfo None); EvSet (setExpandedHazard None);
   EvSet (setHasSearched true)].

(** The state after the setter calls of a trace, in order: the state the
    component is in when the trace has been performed. *)
Definition replay (tr : list event) (st : app_state) : app_state :=
  fold_left (fun s ev => match ev with
                         | EvSet u => apply_setter u s
                         | EvGeo _ | EvNri _ => s
                         end) tr st.

(** The state once those setters have been applied. *)
Definition reset (st : app_state) : app_state :=
  apply_setter (setHasSearched true)
    (apply_setter (setExpandedHazard None)
      (apply_setter (setLocationInfo None)
        (apply_setter (setNriData None)
          (apply_setter (setError None)
            (apply_setter (setLoading true) st))))).

(** The message the [catch] clause stores for a thrown error. *)
Definition shown_message (e : js_error) : jsstring :=
  or_else (message e) GENERIC_ERROR.

(** The state a session leaves when one of its two steps threw [e]. *)
Definition failed_with (e : js_error) (st : app_state) : app_state :=
  apply_setter (setLoading false)
    (apply_setter (setError (Some (shown_message e))) st).

(** How the location step of a session on [zip] ends. *)
Definition resolve_exit (E : env) (zip : jsstring) : exit county_location :=
  exit_of (run E (zipToCountyFips zip) initial_state).

(** How the risk-data step of a session on [fips] ends. *)
Definition fetch_exit (E : env) (countyFips : jsstring) : exit nri_record :=
  exit_of (run E (fetchNRIData countyFips) initial_state).

End Spec.

Import Spec.

(* ================================================================== *)
(** * Sample services and sessions *)
(* ================================================================== *)

Module Samples.

Local Open Scope string_scope.

Definition la_county : county_geo :=
  {| STATE := lit "06"; COUNTY := lit "037"; NAME := lit "Los Angeles County" |}.

Definition beverly_hills : address_match :=
  {| geographies := Some {| Counties := Some [la_county] |};
     addressComponents := Some {| state := Some (lit "CA") |};
     coordinates := {| x := Fin (-118.4065); y := Fin 34.0901 |};
     matchedAddress := lit "BEVERLY HILLS, CA, 90210" |}.

Definition geo_found : response geo_body :=
  {| status := 200;
     json := Resolved (Some {| result := Some {| addressMatches := Some [beverly_hills] |} |}) |}.

Definition ny_county : county_geo :=
  {| STATE := lit "36"; COUNTY := lit "061"; NAME := lit "New York County" |}.

Definition manhattan : address_match :=
  {| geographies := Some {| Counties := Some [ny_county] |};
     addressComponents := Some {| state := Some (lit "NY") |};
     coordinates := {| x := Fin (-73.9967); y := Fin 40.7484 |};
     matchedAddress := lit "NEW YORK, NY, 10001" |}.

Definition geo_found_ny : response geo_body :=
  {| status := 200;
     json := Resolved (Some {| result := Some {| addressMatches := Some [manhattan] |} |}) |}.

Definition geo_no_match : response geo_body :=
  {| status := 200;
     json := Resolved (Some {| result := Some {| addressMatches := Some [] |} |}) |}.


Definition geo_down : response geo_body :=
  {| status := 503; json := Rejected (Error "Unexpected token < in JSON") |}.

Definition la_record : nri_record :=
  [("county", FStr (lit "Los Angeles")); ("state", FStr (lit "California"));
   ("ERQK_RISKS", FNum (Fin 42.3)); ("ERQK_RISKR", FStr (lit "Relatively Moderate"));
   ("HRCN_RISKS", FNull); ("RISK_SCORE", FNum (Fin 99.9))].

Definition other_record : nri_record :=
  [("county", FStr (lit "New York")); ("state", FStr (lit "New York"));
   ("ERQK_RISKS", FNum (Fin 12)); ("RISK_SCORE", FNum (Fin 97))].

Definition nri_found : response nri_data :=
  {| status := 200; json := Resolved {| NriCountyData := Some [la_record; other_record] |} |}.

Definition nri_empty : response nri_data :=
  {| status := 200; json := Resolved {| NriCountyData := Some [] |} |}.

Definition nri_down : response nri_data :=
  {| status := 500; json := Resolved {| NriCountyData := Some [la_record] |} |}.

Definition nri_found_ny : response nri_data :=
  {| status := 200; json := Resolved {| NriCountyData := Some [other_record] |} |}.

(** Both services answer. *)
Definition both_up : env :=
  {| geocoder := fun _ => Resolved geo_found; fema := fun _ => Resolved nri_found |}.

(** The geocoder knows no address for the ZIP. *)
Definition zip_unknown : env :=
  {| geocoder := fun _ => Resolved geo_no_match; fema := fun _ => Resolved nri_found |}.


(** The geocoder answers with a server error. *)
Definition geocoder_down : env :=
  {| geocoder := fun _ => Resolved geo_down; fema := fun _ => Resolved nri_found |}.

(** The request to the geocoder is rejected with an error that carries
    no message, as [new Error()] does. *)
Definition geocoder_silent : env :=
  {| geocoder := fun _ => Rejected {| message := [] |};
     fema := fun _ => Resolved nri_found |}.

(** The hazard index answers with a server error. *)
Definition fema_down : env :=
  {| geocoder := fun _ => Resolved geo_found; fema := fun _ => Resolved nri_down |}.

(** The hazard index has no record for the county. *)
Definition fema_empty : env :=
  {| geocoder := fun _ => Resolved geo_found; fema := fun _ => Resolved nri_empty |}.











(** The state a successful session on "90210" leaves behind. *)
Definition after_success : app_state :=
  state_of (run both_up (handleSearch (lit "90210"))
              (apply_setter (setZipCode (lit "90210")) initial_state)).

End Samples.

Import Samples.

(* ================================================================== *)
(** * What the components compute from a score and from the state *)
(* ================================================================== *)

Module View.

Local Open Scope string_scope.

(** [Math.min(a, b)]: NaN as soon as one side is NaN. *)
Definition Math_min (a b : number) : number :=
  match a, b with
  | NaN, _ | _, NaN => NaN
  | _, _ => if num_le a b then a else b
  end.

(** [Math.round(a)]: the nearest integer, a tie going toward +Infinity. *)
Definition Math_round (a : number) : number :=
  match a with
  | Fin q => Fin (inject_Z (Qfloor (q + (1 # 2))%Q))
  | _ => a
  end.

(** [a >= b] and [a > b] *)
Definition num_ge (a b : number) : bool := num_le b a.

Definition num_gt (a b : number) : bool := num_lt b a.

(** ** [RiskGauge] *)

(** [score === null || score === undefined || score < 0 ? 0
     : Math.min(score, 100)] *)
Definition normalizedScore (s : score) : number :=
  match s with
  | SNull | SUndefined => Fin 0
  | SNum n => if num_lt n (Fin 0) then Fin 0 else Math_min n (Fin 100)
  end.

(** The score arc is rendered when [normalizedScore > 0]. *)
Definition score_arc_drawn (s : score) : bool :=
  num_gt (normalizedScore s) (Fin 0).

(** The number in the middle of the gauge; [None] is the dash.
    [score !== null && score !== undefined && score >= 0
     ? Math.round(score) : dash] *)
Definition gauge_text (s : score) : option number :=
  match s with
  | SNull | SUndefined => None
  | SNum n => if num_ge n (Fin 0) then Some (Math_round n) else None
  end.

(** ** [HazardCard] *)

(** The four properties of the record a card reads for its hazard. *)
Definition hazard_fields (key : string) : list string :=
  [key ++ "_RISKS"; key ++ "_RISKR"; key ++ "_EALS"; key ++ "_EALR"].

(** [riskScore !== null && riskScore !== undefined && riskScore >= 0] *)
Definition hasData (riskScore : score) : bool :=
  match riskScore with
  | SNull | SUndefined => false
  | SNum n => num_ge n (Fin 0)
  end.

(** The text of the badge: [hasData ? rating.label : "No Data"]. *)
Definition badge_text (riskScore : score) : string :=
  if hasData riskScore then label (getRiskRating riskScore) else "No Data".

(** ** [OverallRiskSummary] and the results header *)

(** The properties of the record the summary and the header read. *)
Definition summary_fields : list string :=
  ["RISK_SCORE"; "RISK_RATNG"; "EAL_SCORE"; "SOVI_SCORE"; "RESL_SCORE";
   "EAL_RATNG"; "SOVI_RATNG"; "RESL_RATNG"; "county"; "state"].

(** ** [App] *)

(** The get-started block is rendered when
    [!loading && !nriData && !error && !hasSearched]. *)
Definition empty_state_shown (st : app_state) : bool :=
  negb (loading st)
  && match nriData st with Some _ => false | None => true end
  && match error st with Some m => negb (truthy m) | None => true end
  && negb (hasSearched st).

End View.

Import View.

(* ================================================================== *)
(** * Vocabulary for sequences of user actions *)
(* ================================================================== *)

Module Loop.

(** The input's text after [onChange]. *)
Definition sanitize (value : jsstring) : jsstring :=
  slice0 5 (strip_non_digits value).

(** A tree that never calls [setZipCode]. *)
Fixpoint keeps_zip {A : Type} (p : proc A) : Prop :=
  match p with
  | Ret _ | Throw _ => True
  | Act u k =>
      match u with setZipCode _ => False | _ => True end /\ keeps_zip k
  | FetchGeo _ k => forall o, keeps_zip (k o)
  | FetchNri _ k => forall o, keeps_zip (k o)
  end.

(** A tree that, entered with [loading] equal to [busy], awaits requests
    only while [loading] is set and ends with [loading] cleared. *)
Fixpoint balanced (busy : bool) (p : proc unit) : Prop :=
  match p with
  | Ret _ | Throw _ => busy = false
  | Act u k => balanced (match u with setLoading b => b | _ => busy end) k
  | FetchGeo _ k => busy = true /\ forall o, balanced true (k o)
  | FetchNri _ k => busy = true /\ forall o, balanced true (k o)
  end.

(** What a suspended session goes on with, whatever the answer. *)
Definition tail_keeps_zip (t : suspended) : Prop :=
  match t with
  | AwaitGeo _ k => forall o, keeps_zip (k o)
  | AwaitNri _ k => forall o, keeps_zip (k o)
  end.

Definition tail_balanced (t : suspended) : Prop :=
  match t with
  | AwaitGeo _ k => forall o, balanced true (k o)
  | AwaitNri _ k => forall o, balanced true (k o)
  end.

(** The text of the input is made of at most five digits, and so it stays
    whatever the suspended sessions go on to do. *)
Definition zip_invariant (w : world) : Prop :=
  (Forall ascii_digit (zipCode (ui w))
   /\ (List.length (zipCode (ui w)) <= 5)%nat)
  /\ Forall tail_keeps_zip (inflight w).

(** Nothing is in flight and [loading] is cleared, or one balanced session
    is in flight and [loading] is set. *)
Definition single_session (w : world) : Prop :=
  (inflight w = [] /\ loading (ui w) = false)
  \/ (exists t, inflight w = [t] /\ loading (ui w) = true /\ tail_balanced t).

(** The key pressed is Enter. *)
Definition presses_enter (i : input) : bool :=
  match i with
  | KeyDown key => if list_eq_dec N.eq_dec key (lit "Enter") then true else false
  | _ => false
  end.

(** In the sequence [ins], played from [w], Enter is never pressed while
    [loading] is set. *)
Fixpoint never_enter_while_loading (w : world) (ins : list input) : bool :=
  match ins with
  | [] => true
  | i :: rest =>
      negb (presses_enter i && loading (ui w))
      && never_enter_while_loading (step w i) rest
  end.

(** The text of the bucket decides the tier: the thresholds 15, 30, 50 and
    70 are shared by the two tables. *)
Definition tier_of_bucket (text : string) : rating :=
  if String.eqb text "Insufficient data" then NO_DATA
  else if String.eqb text "< 0.1%" then tier 0
  else if String.eqb text "~0.1–0.5%" then tier 0
  else if String.eqb text "~0.5–2%" then tier 1
  else if String.eqb text "~2–5%" then tier 2
  else if String.eqb text "~5–15%" then tier 3
  else tier 4.

End Loop.

Import Loop.

(* ================================================================== *)
(** * Facts about numbers and strings *)
(* ================================================================== *)

Section NumberFacts.

Local Open Scope Q_scope.

Lemma Qlt_bool_iff (a b : Q) : Qlt_bool a b = true <-> a < b.
Proof.
  unfold Qlt_bool. rewrite Qlt_alt.
  destruct (a ?= b); split; intro H; congruence.
Qed.

Lemma num_lt_Fin (a b : Q) : num_lt (Fin a) (Fin b) = true <-> a < b.
Proof. apply Qlt_bool_iff. Qed.

Lemma num_le_Fin (a b : Q) : num_le (Fin a) (Fin b) = true <-> a <= b.
Proof. apply Qle_bool_iff. Qed.

Lemma num_lt_Fin_false (a b : Q) : b <= a -> num_lt (Fin a) (Fin b) = false.
Proof.
  intro H. destruct (num_lt (Fin a) (Fin b)) eqn:E; [|reflexivity].
  apply num_lt_Fin in E. lra.
Qed.

Lemma num_le_Fin_false (a b : Q) : b < a -> num_le (Fin a) (Fin b) = false.
Proof.
  intro H. destruct (num_le (Fin a) (Fin b)) eqn:E; [|reflexivity].
  apply num_le_Fin in E. lra.
Qed.

Lemma num_le_Fin_true (a b : Q) : a <= b -> num_le (Fin a) (Fin b) = true.
Proof. intro H. now apply num_le_Fin. Qed.

Lemma num_lt_Fin_true (a b : Q) : a < b -> num_lt (Fin a) (Fin b) = true.
Proof. intro H. now apply num_lt_Fin. Qed.

End NumberFacts.

(** Decide the comparisons of a score against the literal bounds from
    linear facts in the context. *)
Ltac cmp :=
  repeat first
    [ rewrite num_lt_Fin_false by lra
    | rewrite num_le_Fin_false by lra
    | rewrite num_le_Fin_true by lra
    | rewrite num_lt_Fin_true by lra ].

(** Split a conjunction into its parts, and nothing else. *)
Ltac conjs := repeat match goal with |- _ /\ _ => split end.

Ltac band := unfold getRiskRating, scoreToOdds; cbn [first_band RISK_RATINGS max to_number]; cmp; reflexivity.

(* ================================================================== *)
(** * The rating classifier and the probability estimator *)
(* ================================================================== *)

Section RatingTheorems.

Local Open Scope Q_scope.
Local Open Scope string_scope.

(** The five tiers carry the labels and bounds of the table. *)
Lemma tier_table :
  map (fun r => (label r, max r)) RISK_RATINGS =
  [("Very Low", Some (Fin 15)); ("Relatively Low", Some (Fin 30));
   ("Relatively Moderate", Some (Fin 50)); ("Relatively High", Some (Fin 70));
   ("Very High", Some (Fin 100))].
Proof. reflexivity. Qed.

(** C1. For a present score [q], [getRiskRating] returns the tier of the
    table: [0 <= q <= 15] the first ("Very Low"), [15 < q <= 30] the second
    ("Relatively Low"), [30 < q <= 50] the third ("Relatively Moderate"),
    [50 < q <= 70] the fourth ("Relatively High"), [70 < q <= 100] the fifth
    ("Very High"); a bound itself falls in the lower tier, and a score above
    every bound (finite or infinite) gets the highest tier. *)
Theorem getRiskRating_table (q : Q) :
  (0 <= q <= 15 ->
     getRiskRating (SNum (Fin q)) = tier 0
     /\ label (getRiskRating (SNum (Fin q))) = "Very Low") /\
  (15 < q <= 30 ->
     getRiskRating (SNum (Fin q)) = tier 1
     /\ label (getRiskRating (SNum (Fin q))) = "Relatively Low") /\
  (30 < q <= 50 ->
     getRiskRating (SNum (Fin q)) = tier 2
     /\ label (getRiskRating (SNum (Fin q))) = "Relatively Moderate") /\
  (50 < q <= 70 ->
     getRiskRating (SNum (Fin q)) = tier 3
     /\ label (getRiskRating (SNum (Fin q))) = "Relatively High") /\
  (70 < q <= 100 ->
     getRiskRating (SNum (Fin q)) = tier 4
     /\ label (getRiskRating (SNum (Fin q))) = "Very High") /\
  (100 < q ->
     getRiskRating (SNum (Fin q)) = tier 4
     /\ label (getRiskRating (SNum (Fin q))) = "Very High") /\
  getRiskRating (SNum PosInf) = tier 4.
Proof.
  conjs; try intros [H1 H2]; try intro H1; conjs; band.
Qed.

Lemma getRiskRating_table_witness :
  label (getRiskRating (SNum (Fin 0))) = "Very Low" /\
  label (getRiskRating (SNum (Fin 15))) = "Very Low" /\
  label (getRiskRating (SNum (Fin 30))) = "Relatively Low" /\
  label (getRiskRating (SNum (Fin 42.3))) = "Relatively Moderate" /\
  label (getRiskRating (SNum (Fin 50))) = "Relatively Moderate" /\
  label (getRiskRating (SNum (Fin 70))) = "Relatively High" /\
  label (getRiskRating (SNum (Fin 100))) = "Very High" /\
  label (getRiskRating (SNum (Fin 250))) = "Very High".
Proof.
  conjs.
  - destruct (getRiskRating_table 0) as (H & _). apply H. lra.
  - destruct (getRiskRating_table 15) as (H & _). apply H. lra.
  - destruct (getRiskRating_table 30) as (_ & H & _). apply H. lra.
  - destruct (getRiskRating_table 42.3) as (_ & _ & H & _). apply H. lra.
  - destruct (getRiskRating_table 50) as (_ & _ & H & _). apply H. lra.
  - destruct (getRiskRating_table 70) as (_ & _ & _ & H & _). apply H. lra.
  - destruct (getRiskRating_table 100) as (_ & _ & _ & _ & H & _). apply H. lra.
  - destruct (getRiskRating_table 250) as (_ & _ & _ & _ & _ & H & _). apply H. lra.
Defined.

(** C2. For a present score [q >= 0], [scoreToOdds] returns the bucket of
    the seven-threshold table with its text, detail and odds: up to 5, up to
    15, up to 30, up to 50, up to 70, up to 85, and above 85; each threshold
    belongs to the bucket it closes, and 100 falls in the last one. *)
Theorem scoreToOdds_table (q : Q) (hazardKey : string) :
  (0 <= q <= 5 ->
     scoreToOdds (SNum (Fin q)) hazardKey =
     {| text := "< 0.1%"; detail := "Less than 1 in 1,000 chance per year";
        odds := Some 0.001 |}) /\
  (5 < q <= 15 ->
     scoreToOdds (SNum (Fin q)) hazardKey =
     {| text := "~0.1–0.5%"; detail := "Roughly 1 in 200 to 1 in 1,000 per year";
        odds := Some 0.003 |}) /\
  (15 < q <= 30 ->
     scoreToOdds (SNum (Fin q)) hazardKey =
     {| text := "~0.5–2%"; detail := "Roughly 1 in 50 to 1 in 200 per year";
        odds := Some 0.01 |}) /\
  (30 < q <= 50 ->
     scoreToOdds (SNum (Fin q)) hazardKey =
     {| text := "~2–5%"; detail := "Roughly 1 in 20 to 1 in 50 per year";
        odds := Some 0.035 |}) /\
  (50 < q <= 70 ->
     scoreToOdds (SNum (Fin q)) hazardKey =
     {| text := "~5–15%"; detail := "Roughly 1 in 7 to 1 in 20 per year";
        odds := Some 0.1 |}) /\
  (70 < q <= 85 ->
     scoreToOdds (SNum (Fin q)) hazardKey =
     {| text := "~15–30%"; detail := "Roughly 1 in 3 to 1 in 7 per year";
        odds := Some 0.225 |}) /\
  (85 < q ->
     scoreToOdds (SNum (Fin q)) hazardKey =
     {| text := "> 30%"; detail := "Greater than 1 in 3 chance per year";
        odds := Some 0.4 |}).
Proof.
  conjs; try intros [H1 H2]; try intro H1; band.
Qed.

Lemma scoreToOdds_table_witness :
  text (scoreToOdds (SNum (Fin 0)) "ERQK") = "< 0.1%" /\
  text (scoreToOdds (SNum (Fin 5)) "ERQK") = "< 0.1%" /\
  text (scoreToOdds (SNum (Fin 15)) "HRCN") = "~0.1–0.5%" /\
  text (scoreToOdds (SNum (Fin 30)) "TRND") = "~0.5–2%" /\
  text (scoreToOdds (SNum (Fin 50)) "RFLD") = "~2–5%" /\
  text (scoreToOdds (SNum (Fin 70)) "WFIR") = "~5–15%" /\
  text (scoreToOdds (SNum (Fin 85)) "ERQK") = "~15–30%" /\
  text (scoreToOdds (SNum (Fin 100)) "ERQK") = "> 30%".
Proof.
  conjs.
  - destruct (scoreToOdds_table 0 "ERQK") as (H & _). rewrite H by lra. reflexivity.
  - destruct (scoreToOdds_table 5 "ERQK") as (H & _). rewrite H by lra. reflexivity.
  - destruct (scoreToOdds_table 15 "HRCN") as (_ & H & _). rewrite H by lra. reflexivity.
  - destruct (scoreToOdds_table 30 "TRND") as (_ & _ & H & _). rewrite H by lra. reflexivity.
  - destruct (scoreToOdds_table 50 "RFLD") as (_ & _ & _ & H & _). rewrite H by lra. reflexivity.
  - destruct (scoreToOdds_table 70 "WFIR") as (_ & _ & _ & _ & H & _). rewrite H by lra. reflexivity.
  - destruct (scoreToOdds_table 85 "ERQK") as (_ & _ & _ & _ & _ & H & _). rewrite H by lra. reflexivity.
  - destruct (scoreToOdds_table 100 "ERQK") as (_ & _ & _ & _ & _ & _ & H). rewrite H by lra. reflexivity.
Defined.

(** C8. For an absent ([null], [undefined]) or negative score,
    [getRiskRating] returns the "No Data" band, which has the grey colour
    pair and is none of the five tiers, and [scoreToOdds] returns the
    insufficient-data descriptor, with empty detail and no odds. *)
Theorem no_data_when_absent_or_negative (s : score) (hazardKey : string) :
  absent s \/ negative s ->
  getRiskRating s = NO_DATA /\
  label NO_DATA = "No Data" /\
  color NO_DATA = "#95a5a6" /\
  ~ In NO_DATA RISK_RATINGS /\
  scoreToOdds s hazardKey =
    {| text := "Insufficient data"; detail := ""; odds := None |}.
Proof.
  intro H.
  assert (Hb : absent_or_negative s = true).
  { destruct H as [[-> | ->] | [-> | (q & Hq & ->)]]; try reflexivity.
    cbn. now apply num_lt_Fin. }
  conjs.
  - destruct s as [| | n]; try reflexivity. cbn in Hb |- *. now rewrite Hb.
  - reflexivity.
  - reflexivity.
  - intro Hin. cbn in Hin.
    repeat (destruct Hin as [Hin | Hin]; [discriminate Hin|]). exact Hin.
  - destruct s as [| | n]; try reflexivity. cbn in Hb |- *. now rewrite Hb.
Qed.

Lemma no_data_when_absent_or_negative_witness :
  getRiskRating (SNum (Fin (-1))) = NO_DATA /\
  getRiskRating SNull = NO_DATA /\
  odds (scoreToOdds SUndefined "TRND") = None.
Proof.
  conjs.
  - apply (no_data_when_absent_or_negative (s := SNum (Fin (-1))) "ERQK").
    right. right. exists (-1). split; [lra | reflexivity].
  - apply (no_data_when_absent_or_negative (s := SNull) "ERQK").
    left. left. reflexivity.
  - destruct (no_data_when_absent_or_negative (s := SUndefined) "TRND")
      as (_ & _ & _ & _ & H).
    + left. right. reflexivity.
    + rewrite H. reflexivity.
Defined.

(** C10. [scoreToOdds] never reads [hazardKey]: for every score the result
    is the same under any two keys, so the five hazards share one table. *)
Theorem scoreToOdds_ignores_hazardKey (s : score) (k1 k2 : string) :
  scoreToOdds s k1 = scoreToOdds s k2.
Proof. destruct s as [| | n]; reflexivity. Qed.

(** The five hazard cards of one score show one and the same bucket. *)
Lemma same_bucket_for_every_hazard (s : score) :
  Forall (fun k => scoreToOdds s k = scoreToOdds s "ERQK") HAZARD_KEYS.
Proof.
  apply Forall_forall. intros k _. destruct s as [| | n]; reflexivity.
Qed.

End RatingTheorems.

(* ================================================================== *)
(** * Running the effect trees *)
(* ================================================================== *)

(** Requests and messages stay folded while a run is unfolded. *)
Arguments geocode_url : simpl never.
Arguments nri_url : simpl never.
Arguments lit : simpl never.
Arguments of_N : simpl never.

Section RunFacts.

Variable E : env.

Lemma run_bind {A B : Type} (p : proc A) (f : A -> proc B) (st : app_state) :
  run E (bind p f) st =
  match run E p st with
  | (Returned a, st', tr) =>
      let '(r, st'', tr') := run E (f a) st' in (r, st'', tr ++ tr')
  | (Thrown e, st', tr) => (Thrown e, st', tr)
  end.
Proof.
  revert st.
  induction p as [a | e | u k IH | url k IH | url k IH]; intro st; cbn.
  - destruct (run E (f a) st) as [[r st'] tr]. reflexivity.
  - reflexivity.
  - rewrite IH. destruct (run E k (apply_setter u st)) as [[[a | e] st'] tr].
    + destruct (run E (f a) st') as [[r st''] tr']. reflexivity.
    + reflexivity.
  - rewrite IH. destruct (run E (k (geocoder E url)) st) as [[[a | e] st'] tr].
    + destruct (run E (f a) st') as [[r st''] tr']. reflexivity.
    + reflexivity.
  - rewrite IH. destruct (run E (k (fema E url)) st) as [[[a | e] st'] tr].
    + destruct (run E (f a) st') as [[r st''] tr']. reflexivity.
    + reflexivity.
Qed.

Lemma run_try_catch {A : Type} (p : proc A) (h : js_error -> proc A)
    (st : app_state) :
  run E (try_catch p h) st =
  match run E p st with
  | (Returned a, st', tr) => (Returned a, st', tr)
  | (Thrown e, st', tr) =>
      let '(r, st'', tr') := run E (h e) st' in (r, st'', tr ++ tr')
  end.
Proof.
  revert st.
  induction p as [a | e | u k IH | url k IH | url k IH]; intro st; cbn.
  - reflexivity.
  - destruct (run E (h e) st) as [[r st'] tr]. reflexivity.
  - rewrite IH. destruct (run E k (apply_setter u st)) as [[[a | e] st'] tr].
    + reflexivity.
    + destruct (run E (h e) st') as [[r st''] tr']. reflexivity.
  - rewrite IH. destruct (run E (k (geocoder E url)) st) as [[[a | e] st'] tr].
    + reflexivity.
    + destruct (run E (h e) st') as [[r st''] tr']. reflexivity.
  - rewrite IH. destruct (run E (k (fema E url)) st) as [[[a | e] st'] tr].
    + reflexivity.
    + destruct (run E (h e) st') as [[r st''] tr']. reflexivity.
Qed.

Lemma run_call (u : setter) (st : app_state) :
  run E (call u) st = (Returned tt, apply_setter u st, [EvSet u]).
Proof. reflexivity. Qed.

(** The location step sends one request and touches no state. *)
Lemma run_zipToCountyFips (zip : jsstring) (st : app_state) :
  run E (zipToCountyFips zip) st =
  (resolve_exit E zip, st, [EvGeo (geocode_url zip)]).
Proof.
  unfold resolve_exit, zipToCountyFips, exit_of. cbn.
  destruct (geocoder E (geocode_url zip)) as [r | e]; cbn; [|reflexivity].
  destruct (ok r); cbn; [|reflexivity].
  destruct (json r) as [d | e]; cbn; [|reflexivity].
  destruct (matches_of d) as [[| m ms] |]; cbn; try reflexivity.
  destruct (counties_of (geographies m)) as [[| c cs] |]; reflexivity.
Qed.

(** The risk-data step sends one request and touches no state. *)
Lemma run_fetchNRIData (countyFips : jsstring) (st : app_state) :
  run E (fetchNRIData countyFips) st =
  (fetch_exit E countyFips, st, [EvNri (nri_url countyFips)]).
Proof.
  unfold fetch_exit, fetchNRIData, exit_of. cbn.
  destruct (fema E (nri_url countyFips)) as [r | e]; cbn; [|reflexivity].
  destruct (ok r); cbn; [|reflexivity].
  destruct (json r) as [d | e]; cbn; [|reflexivity].
  destruct (NriCountyData d) as [[| r1 rs] |]; reflexivity.
Qed.

End RunFacts.

(* ================================================================== *)
(** * The two service calls *)
(* ================================================================== *)

Section ServiceTheorems.

Local Open Scope string_scope.










(** The request names exactly the state and county parts of the code. *)
Lemma nri_url_example :
  nri_url (lit "06037") =
  (lit "https://www.fema.gov/api/open/v1/NriCountyData?$filter=stateCode eq '06' and countyCode eq '037'&$select="
   ++ join (lit ",") NRI_FIELDS)%list.
Proof. vm_compute. reflexivity. Qed.

End ServiceTheorems.

(* ================================================================== *)
(** * Validation of the ZIP code *)
(* ================================================================== *)

Section ZipFacts.

Lemma isDigit_iff (c : N) : isDigit c = true <-> ascii_digit c.
Proof.
  unfold isDigit, ascii_digit.
  rewrite andb_true_iff, !N.leb_le. reflexivity.
Qed.

Lemma test_zip_iff (s : jsstring) : test_zip s = true <-> five_digits s.
Proof.
  unfold five_digits. split.
  - destruct s as [| a [| b [| c [| d [| e [| f s]]]]]]; cbn; try discriminate.
    rewrite !andb_true_iff, !isDigit_iff.
    intros [[[[Ha Hb] Hc] Hd] He]. split; [reflexivity|].
    repeat (apply Forall_cons; [assumption|]). apply Forall_nil.
  - intros [Hlen Hall].
    destruct s as [| a [| b [| c [| d [| e [| f s]]]]]]; cbn in Hlen; try discriminate.
    repeat match goal with H : Forall _ (_ :: _) |- _ => inversion_clear H end.
    cbn. rewrite !andb_true_iff, !isDigit_iff. tauto.
Qed.

Lemma test_zip_false_iff (s : jsstring) : test_zip s = false <-> ~ five_digits s.
Proof.
  rewrite <- test_zip_iff. destruct (test_zip s); split; congruence.
Qed.

Lemma digit_not_space (c : N) : ascii_digit c -> isWhiteSpace c = false.
Proof.
  unfold ascii_digit, isWhiteSpace. intros [H1 H2].
  assert ((c <=? 13)%N = false) as -> by (apply N.leb_gt; lia).
  assert ((8192 <=? c)%N = false) as -> by (apply N.leb_gt; lia).
  repeat match goal with
         | |- context [(c =? ?k)%N] =>
             assert ((c =? k)%N = false) as -> by (apply N.eqb_neq; lia)
         end.
  rewrite andb_false_r. reflexivity.
Qed.

(** A string of five digits has nothing to trim. *)
Lemma trim_five_digits (s : jsstring) : five_digits s -> trim s = s.
Proof.
  intros [Hlen Hall].
  destruct s as [| a [| b [| c [| d [| e [| f s]]]]]]; cbn in Hlen; try discriminate.
  repeat match goal with H : Forall _ (_ :: _) |- _ => inversion_clear H end.
  unfold trim, trimEnd. cbn.
  rewrite (@digit_not_space a) by assumption. cbn.
  rewrite (@digit_not_space e) by assumption. reflexivity.
Qed.

(** What [onChange] stores is made of digits only, at most five. *)
Lemma onChange_keeps_digits (value : jsstring) :
  Forall ascii_digit (slice0 5 (strip_non_digits value)) /\
  (List.length (slice0 5 (strip_non_digits value)) <= 5)%nat.
Proof.
  unfold slice0, strip_non_digits. split.
  - apply Forall_forall. intros c Hc.
    apply In_nth_error in Hc. destruct Hc as [n Hn].
    rewrite nth_error_firstn in Hn.
    destruct (n <? 5)%nat; [|discriminate Hn].
    apply nth_error_In in Hn. apply filter_In in Hn.
    now apply isDigit_iff.
  - apply firstn_le_length.
Qed.

(** Digits only: nothing to trim, so validation sees the text as typed. *)
Lemma trim_digits (s : jsstring) : Forall ascii_digit s -> trim s = s.
Proof.
  intro Hall. unfold trim, trimEnd.
  assert (H1 : forall t, Forall ascii_digit t -> trimStart t = t).
  { intros [| c t] Ht; [reflexivity|]. cbn.
    inversion_clear Ht. now rewrite digit_not_space. }
  rewrite (H1 s Hall), H1.
  - apply rev_involutive.
  - apply Forall_rev. exact Hall.
Qed.

(** The text the input holds has been through [onChange]: validation
    sees it as typed. *)
Lemma typed_zip_is_validated_as_typed (value : jsstring) :
  trim (slice0 5 (strip_non_digits value)) = slice0 5 (strip_non_digits value).
Proof. apply trim_digits. apply onChange_keeps_digits. Qed.

End ZipFacts.

(* ================================================================== *)
(** * One run of [handleSearch] *)
(* ================================================================== *)

Section SessionFacts.

Variable E : env.

Lemma run_try_finally {A : Type} (p : proc A) (f : proc unit) (st : app_state) :
  run E (try_finally p f) st =
  let '(r, st', tr) := run E p st in
  match run E f st' with
  | (Returned _, st'', tr') => (r, st'', tr ++ tr')
  | (Thrown e, st'', tr') => (Thrown e, st'', tr ++ tr')
  end.
Proof.
  revert st.
  induction p as [a | e | u k IH | url k IH | url k IH]; intro st; cbn.
  - rewrite run_bind.
    destruct (run E f st) as [[[[] | e] st'] tr]; cbn; rewrite ?app_nil_r; reflexivity.
  - rewrite run_bind.
    destruct (run E f st) as [[[[] | e'] st'] tr]; cbn; rewrite ?app_nil_r; reflexivity.
  - rewrite IH. destruct (run E k (apply_setter u st)) as [[r st'] tr].
    destruct (run E f st') as [[[[] | e] st''] tr']; reflexivity.
  - rewrite IH. destruct (run E (k (geocoder E url)) st) as [[r st'] tr].
    destruct (run E f st') as [[[[] | e] st''] tr']; reflexivity.
  - rewrite IH. destruct (run E (k (fema E url)) st) as [[r st'] tr].
    destruct (run E f st') as [[[[] | e] st''] tr']; reflexivity.
Qed.

(** A submission that fails validation sets the error and does nothing
    else. *)
Lemma run_handleSearch_invalid (z : jsstring) (st : app_state) :
  test_zip (trim z) = false ->
  run E (handleSearch z) st =
  (Returned tt, apply_setter (setError (Some INVALID_ZIP)) st,
   [EvSet (setError (Some INVALID_ZIP))]).
Proof. intro H. unfold handleSearch. rewrite H. reflexivity. Qed.

(** The try block: location step, then risk-data step. *)
Lemma run_lookup (zip : jsstring) (st : app_state) :
  run E (lookup zip) st =
  match resolve_exit E zip with
  | Thrown e => (Thrown e, st, [EvGeo (geocode_url zip)])
  | Returned loc =>
      match fetch_exit E (fips loc) with
      | Thrown e =>
          (Thrown e, apply_setter (setLocationInfo (Some loc)) st,
           [EvGeo (geocode_url zip); EvSet (setLocationInfo (Some loc));
            EvNri (nri_url (fips loc))])
      | Returned record =>
          (Returned tt,
           apply_setter (setNriData (Some record))
             (apply_setter (setLocationInfo (Some loc)) st),
           [EvGeo (geocode_url zip); EvSet (setLocationInfo (Some loc));
            EvNri (nri_url (fips loc)); EvSet (setNriData (Some record))])
      end
  end.
Proof.
  unfold lookup. rewrite run_bind, run_zipToCountyFips.
  destruct (resolve_exit E zip) as [loc | e]; [|reflexivity].
  rewrite run_bind, run_call, run_bind, run_fetchNRIData.
  destruct (fetch_exit E (fips loc)) as [record | e]; reflexivity.
Qed.

(** A submission that passes validation: the reset, the try block, the
    catch clause if a step threw, and [setLoading(false)] last. *)
Lemma run_handleSearch_valid (z : jsstring) (st : app_state) :
  test_zip (trim z) = true ->
  run E (handleSearch z) st =
  match resolve_exit E (trim z) with
  | Thrown e =>
      (Returned tt, failed_with e (reset st),
       reset_calls ++
       [EvGeo (geocode_url (trim z));
        EvSet (setError (Some (shown_message e))); EvSet (setLoading false)])
  | Returned loc =>
      match fetch_exit E (fips loc) with
      | Thrown e =>
          (Returned tt,
           failed_with e (apply_setter (setLocationInfo (Some loc)) (reset st)),
           reset_calls ++
           [EvGeo (geocode_url (trim z)); EvSet (setLocationInfo (Some loc));
            EvNri (nri_url (fips loc));
            EvSet (setError (Some (shown_message e))); EvSet (setLoading false)])
      | Returned record =>
          (Returned tt,
           apply_setter (setLoading false)
             (apply_setter (setNriData (Some record))
               (apply_setter (setLocationInfo (Some loc)) (reset st))),
           reset_calls ++
           [EvGeo (geocode_url (trim z)); EvSet (setLocationInfo (Some loc));
            EvNri (nri_url (fips loc)); EvSet (setNriData (Some record));
            EvSet (setLoading false)])
      end
  end.
Proof.
  intro H. unfold handleSearch. rewrite H. cbn [negb].
  do 6 (rewrite run_bind, run_call).
  rewrite run_try_finally, run_try_catch, run_lookup.
  destruct (resolve_exit E (trim z)) as [loc | e]; [|reflexivity].
  destruct (fetch_exit E (fips loc)) as [record | e]; reflexivity.
Qed.

End SessionFacts.

(* ================================================================== *)
(** * The lookup session *)
(* ================================================================== *)

Section SessionTheorems.

(** The state a run leaves is the initial state with the setter calls of
    its trace applied in order. *)
Lemma state_is_replay {A : Type} (E : env) (p : proc A) (st : app_state) :
  state_of (run E p st) = replay (trace_of (run E p st)) st.
Proof.
  revert st. unfold state_of, trace_of, replay.
  induction p as [a | e | u k IH | url k IH | url k IH]; intro st; cbn.
  - reflexivity.
  - reflexivity.
  - specialize (IH (apply_setter u st)).
    destruct (run E k (apply_setter u st)) as [[r st'] tr]. exact IH.
  - specialize (IH (geocoder E url) st).
    destruct (run E (k (geocoder E url)) st) as [[r st'] tr]. exact IH.
  - specialize (IH (fema E url) st).
    destruct (run E (k (fema E url)) st) as [[r st'] tr]. exact IH.
Qed.

(** What [handleSearch] does with any text: it validates the text with
    surrounding white space removed.  When the
    input with surrounding white space removed is not exactly five ASCII
    digits, the run only stores the validation message as the error and
    sends no request; when it is, the reset is followed by the request to
    the geocoder for the trimmed text.  An input that is itself five digits
    is its own trimmed form, so it passes and is looked up as typed. *)
Lemma handleSearch_validates_trimmed_zip (E : env) (st : app_state)
    (z : jsstring) :
  (~ five_digits (trim z) ->
     rejected_by_validation E st z /\
     trace_of (run E (handleSearch z) st) = [EvSet (setError (Some INVALID_ZIP))]) /\
  (five_digits (trim z) ->
     exists rest,
       trace_of (run E (handleSearch z) st)
       = reset_calls ++ EvGeo (geocode_url (trim z)) :: rest) /\
  (five_digits z ->
     trim z = z /\ In (EvGeo (geocode_url z)) (trace_of (run E (handleSearch z) st))).
Proof.
  assert (Hvalid : five_digits (trim z) ->
     exists rest,
       trace_of (run E (handleSearch z) st)
       = reset_calls ++ EvGeo (geocode_url (trim z)) :: rest).
  { intro H. apply test_zip_iff in H.
    rewrite (run_handleSearch_valid E z st H). unfold trace_of.
    destruct (resolve_exit E (trim z)) as [loc | e];
      [destruct (fetch_exit E (fips loc)) as [record | e]|];
      cbn [snd]; eexists; reflexivity. }
  split; [|split].
  - intro H. apply test_zip_false_iff in H.
    unfold rejected_by_validation.
    rewrite (run_handleSearch_invalid E z st H). conjs; reflexivity.
  - exact Hvalid.
  - intro H. pose proof (trim_five_digits H) as Ht. split; [exact Ht|].
    rewrite <- Ht in H. destruct (Hvalid H) as [rest Hrest].
    rewrite Hrest, Ht. apply in_or_app. right. left. reflexivity.
Qed.

(** The session on "90210" with both services up: it ends with the
    location and the record, and no error. *)
Lemma successful_session :
  error after_success = None /\
  loading after_success = false /\
  option_map fips (locationInfo after_success) = Some (lit "06037") /\
  nriData after_success = Some la_record.
Proof. conjs; vm_compute; reflexivity. Qed.

(** No request to the hazard index occurs in a trace. *)
Lemma no_nri_in (tr : list event) :
  forallb (fun ev => negb (is_nri ev)) tr = true ->
  forall url, ~ In (EvNri url) tr.
Proof.
  intros H url Hin. rewrite forallb_forall in H.
  specialize (H _ Hin). discriminate H.
Qed.

(** C4, as stated, fails: when the request to the geocoder is rejected
    with an error that has an empty message, the session does not end with
    that (empty) message but with the generic one. *)
Lemma empty_message_is_replaced :
  resolve_exit geocoder_silent (lit "90210") = Thrown {| message := [] |} /\
  error (state_of (run geocoder_silent (handleSearch (lit "90210")) initial_state))
  = Some (lit "An error occurred. Please try again.") /\
  error (state_of (run geocoder_silent (handleSearch (lit "90210")) initial_state))
  <> Some (message {| message := [] |}).
Proof.
  conjs.
  - reflexivity.
  - vm_compute. reflexivity.
  - intro H. vm_compute in H. discriminate H.
Qed.

(** C4, amended.  When the location step of a session throws, no request
    to the hazard index is sent, the only request of the run is the one to
    the geocoder, [loading] ends false and the error is the thrown
    message verbatim when that message is not empty (the generic message
    stands in for an empty one).  In every run the requests are in the
    order geocoder first, hazard index second: none, the geocoder alone,
    or the geocoder followed by the hazard index for the county the
    geocoder returned. *)
Theorem failed_resolution_short_circuits (E : env) (st : app_state)
    (z : jsstring) :
  (forall e : js_error,
     five_digits (trim z) ->
     resolve_exit E (trim z) = Thrown e ->
     (forall url, ~ In (EvNri url) (trace_of (run E (handleSearch z) st))) /\
     requests (trace_of (run E (handleSearch z) st)) = [EvGeo (geocode_url (trim z))] /\
     loading (state_of (run E (handleSearch z) st)) = false /\
     error (state_of (run E (handleSearch z) st))
     = Some (if truthy (message e) then message e else GENERIC_ERROR) /\
     (message e <> [] ->
        error (state_of (run E (handleSearch z) st)) = Some (message e))) /\
  (requests (trace_of (run E (handleSearch z) st)) = []
   \/ requests (trace_of (run E (handleSearch z) st)) = [EvGeo (geocode_url (trim z))]
   \/ exists loc,
        resolve_exit E (trim z) = Returned loc /\
        requests (trace_of (run E (handleSearch z) st))
        = [EvGeo (geocode_url (trim z)); EvNri (nri_url (fips loc))]).
Proof.
  split.
  - intros e Hz He. apply test_zip_iff in Hz.
    rewrite (run_handleSearch_valid E z st Hz), He.
    unfold trace_of, state_of. cbn [fst snd]. conjs.
    + apply no_nri_in. reflexivity.
    + reflexivity.
    + reflexivity.
    + reflexivity.
    + intro Hne. cbn. unfold shown_message, or_else.
      destruct (message e) as [| c m]; [contradiction|reflexivity].
  - destruct (test_zip (trim z)) eqn:Hz.
    + rewrite (run_handleSearch_valid E z st Hz). unfold trace_of.
      destruct (resolve_exit E (trim z)) as [loc | e].
      * right. right. exists loc. split; [reflexivity|].
        destruct (fetch_exit E (fips loc)) as [record | e]; reflexivity.
      * right. left. reflexivity.
    + rewrite (run_handleSearch_invalid E z st Hz). left. reflexivity.
Qed.

Lemma failed_resolution_short_circuits_witness :
  (forall url,
     ~ In (EvNri url) (trace_of (run zip_unknown (handleSearch (lit "00000")) initial_state))) /\
  error (state_of (run zip_unknown (handleSearch (lit "00000")) initial_state))
  = Some (lit "Could not find location for this ZIP code. Please check and try again.").
Proof.
  assert (H5 : five_digits (trim (lit "00000"))).
  { apply test_zip_iff. reflexivity. }
  destruct (failed_resolution_short_circuits zip_unknown initial_state (lit "00000"))
    as (H & _).
  destruct (H NO_LOCATION H5 eq_refl) as (Hnri & _ & _ & _ & Hmsg).
  split.
  - exact Hnri.
  - apply Hmsg. intro Habs. discriminate Habs.
Defined.

(** C7, as stated, fails: after a successful session, a submission that
    fails validation stores the validation message and leaves the previous
    record and location in place, and the results block is still shown. *)
Lemma invalid_zip_keeps_previous_results :
  nriData after_success = Some la_record /\
  error (state_of (run both_up (handleSearch (lit "1234")) after_success))
  = Some INVALID_ZIP /\
  nriData (state_of (run both_up (handleSearch (lit "1234")) after_success))
  = Some la_record /\
  locationInfo (state_of (run both_up (handleSearch (lit "1234")) after_success))
  = locationInfo after_success /\
  error_shown (state_of (run both_up (handleSearch (lit "1234")) after_success))
  = Some INVALID_ZIP /\
  results_shown (state_of (run both_up (handleSearch (lit "1234")) after_success))
  <> None.
Proof.
  conjs; try (vm_compute; reflexivity).
  intro H. vm_compute in H. discriminate H.
Qed.

(** C7, amended.  A submission that passes validation first calls the six
    setters that discard the previous session, before its first request;
    in the state they leave, error, record and location are all cleared.
    A record left by such a run is the one its own risk-data step
    returned, so when the run ends with an error no record and no results
    are shown.  A submission that fails validation changes the error only:
    record and location stay as they were. *)
Theorem valid_submission_discards_previous (E : env) (st : app_state)
    (z : jsstring) :
  (five_digits (trim z) ->
     (exists rest,
        trace_of (run E (handleSearch z) st)
        = reset_calls ++ EvGeo (geocode_url (trim z)) :: rest) /\
     (error (replay reset_calls st) = None
      /\ nriData (replay reset_calls st) = None
      /\ locationInfo (replay reset_calls st) = None) /\
     (forall record,
        nriData (state_of (run E (handleSearch z) st)) = Some record ->
        exists loc,
          resolve_exit E (trim z) = Returned loc
          /\ fetch_exit E (fips loc) = Returned record) /\
     (error (state_of (run E (handleSearch z) st)) <> None ->
        nriData (state_of (run E (handleSearch z) st)) = None
        /\ results_shown (state_of (run E (handleSearch z) st)) = None)) /\
  (~ five_digits (trim z) ->
     state_of (run E (handleSearch z) st)
     = apply_setter (setError (Some INVALID_ZIP)) st
     /\ nriData (state_of (run E (handleSearch z) st)) = nriData st
     /\ locationInfo (state_of (run E (handleSearch z) st)) = locationInfo st).
Proof.
  split.
  - intro Hz. apply test_zip_iff in Hz.
    rewrite (run_handleSearch_valid E z st Hz).
    unfold trace_of, state_of.
    destruct (resolve_exit E (trim z)) as [loc | e] eqn:Hres;
      [destruct (fetch_exit E (fips loc)) as [record | e] eqn:Hfetch|];
      cbn [fst snd];
      (split; [eexists; reflexivity | split; [cbn; conjs; reflexivity | split]]);
      cbn.
    + intros r Hr. injection Hr as <-. exists loc.
      split; [reflexivity | exact Hfetch].
    + intro H. exfalso. apply H. reflexivity.
    + intros r Hr. discriminate Hr.
    + intros _. split; reflexivity.
    + intros r Hr. discriminate Hr.
    + intros _. split; reflexivity.
  - intro Hz. apply test_zip_false_iff in Hz.
    rewrite (run_handleSearch_invalid E z st Hz). conjs; reflexivity.
Qed.

Lemma valid_submission_discards_previous_witness :
  nriData (state_of (run fema_down (handleSearch (lit "90210")) after_success)) = None /\
  results_shown (state_of (run fema_down (handleSearch (lit "90210")) after_success)) = None /\
  nriData (state_of (run both_up (handleSearch (lit "1234")) after_success))
  = nriData after_success.
Proof.
  assert (H5 : five_digits (trim (lit "90210"))).
  { apply test_zip_iff. reflexivity. }
  assert (H4 : ~ five_digits (trim (lit "1234"))).
  { apply test_zip_false_iff. reflexivity. }
  destruct (valid_submission_discards_previous fema_down after_success (lit "90210"))
    as (Hv & _).
  destruct (Hv H5) as (_ & _ & _ & Hfail).
  destruct (valid_submission_discards_previous both_up after_success (lit "1234"))
    as (_ & Hi).
  destruct (Hi H4) as (_ & Hkeep & _).
  assert (Herr : error (state_of (run fema_down (handleSearch (lit "90210")) after_success))
                 <> None).
  { intro Habs. vm_compute in Habs. discriminate Habs. }
  destruct (Hfail Herr) as (Hn & Hs).
  conjs.
  - exact Hn.
  - exact Hs.
  - exact Hkeep.
Defined.

End SessionTheorems.

(* ================================================================== *)
(** * Submissions while a session is in flight *)
(* ================================================================== *)

Section EventLoopTheorems.

(** The button is disabled while [loading] is set: a click then leaves the
    component, state and suspended sessions, as it was. *)
Lemma click_refused_while_loading (w : world) :
  loading (ui w) = true -> refused w Click.
Proof. unfold refused. cbn. intros ->. reflexivity. Qed.

(** A key other than Enter never submits. *)
Lemma other_key_ignored (w : world) (key : jsstring) :
  key <> lit "Enter" -> refused w (KeyDown key).
Proof.
  intro H. unfold refused, step, start, handleKeyDown.
  destruct (list_eq_dec N.eq_dec key (lit "Enter")) as [Heq | _];
    [contradiction|].
  destruct w. reflexivity.
Qed.

(** C9.  The code at the failing input.  A session on "90210", started by
    the button, is awaiting the geocoder and [loading] is set.  A click is
    refused, but Enter is not: after typing "10001", Enter starts a second
    session next to the first.  When the four requests settle (geocoder
    for the first, geocoder for the second, hazard index for the second,
    hazard index for the first), both sessions have written the one result
    slot: the component shows the Los Angeles record of the first session
    under the New York location of the second. *)
Theorem enter_while_loading_starts_second_session :
  let w1 := steps initial_world [Typed (lit "90210"); Click] in
  let w2 := steps w1 [Typed (lit "10001"); KeyDown (lit "Enter")] in
  let w3 := steps w2 [GeoSettled 0 (Resolved geo_found);
                      GeoSettled 0 (Resolved geo_found_ny);
                      NriSettled 1 (Resolved nri_found_ny);
                      NriSettled 0 (Resolved nri_found)] in
  (loading (ui w1) = true /\ List.length (inflight w1) = 1%nat) /\
  refused w1 Click /\
  ~ refused w1 (KeyDown (lit "Enter")) /\
  (loading (ui w2) = true /\ List.length (inflight w2) = 2%nat) /\
  inflight w3 = [] /\
  loading (ui w3) = false /\
  error (ui w3) = None /\
  nriData (ui w3) = Some la_record /\
  option_map fips (locationInfo (ui w3)) = Some (lit "36061") /\
  results_shown (ui w3) = Some (la_record, make_location manhattan ny_county).
Proof.
  cbv zeta. conjs.
  - vm_compute. reflexivity.
  - vm_compute. reflexivity.
  - apply click_refused_while_loading. vm_compute. reflexivity.
  - intro H. apply (f_equal (fun w => List.length (inflight w))) in H.
    vm_compute in H. discriminate H.
  - vm_compute. reflexivity.
  - vm_compute. reflexivity.
  - vm_compute. reflexivity.
  - vm_compute. reflexivity.
  - vm_compute. reflexivity.
  - vm_compute. reflexivity.
  - vm_compute. reflexivity.
  - vm_compute. reflexivity.
Qed.

(** Left alone, the event loop does what [run] does: a handler started
    with nothing in flight and answered by the services ends, after
    finitely many answers, in the state [run] computes, with nothing left
    in flight. *)
Lemma drain_agrees_with_run (E : env) (p : proc unit) (st : app_state) :
  exists fuel,
    drain E fuel (start p {| ui := st; inflight := [] |})
    = {| ui := state_of (run E p st); inflight := [] |}.
Proof.
  revert st.
  induction p as [a | e | u k IH | url k IH | url k IH]; intro st.
  - exists 0%nat. reflexivity.
  - exists 0%nat. reflexivity.
  - destruct (IH (apply_setter u st)) as [fuel Hfuel]. exists fuel.
    unfold start in *. cbn [advance ui inflight] in *. rewrite Hfuel.
    unfold state_of. cbn [run].
    destruct (run E k (apply_setter u st)) as [[r st'] tr]. reflexivity.
  - destruct (IH (geocoder E url) st) as [fuel Hfuel]. exists (S fuel).
    unfold start at 1. cbn [advance ui inflight app drain answer step nth_error].
    unfold resume. cbn [remove_nth ui inflight]. rewrite Hfuel.
    unfold state_of. cbn [run].
    destruct (run E (k (geocoder E url)) st) as [[r st'] tr]. reflexivity.
  - destruct (IH (fema E url) st) as [fuel Hfuel]. exists (S fuel).
    unfold start at 1. cbn [advance ui inflight app drain answer step nth_error].
    unfold resume. cbn [remove_nth ui inflight]. rewrite Hfuel.
    unfold state_of. cbn [run].
    destruct (run E (k (fema E url)) st) as [[r st'] tr]. reflexivity.
Qed.

(** A session started by a click and answered by the services ends in the
    state [run] computes. *)
Lemma click_then_answers :
  ui (drain both_up 2 (steps initial_world [Typed (lit "90210"); Click]))
  = after_success.
Proof. vm_compute. reflexivity. Qed.

End EventLoopTheorems.

(* ================================================================== *)
(** * More on the two tables *)
(* ================================================================== *)

Section TableFacts.

Local Open Scope Q_scope.
Local Open Scope string_scope.

(** The seven ranges of a finite score that is not negative, with what
    both functions return on each. *)
Lemma finite_score_cases (q : Q) (k : string) :
  0 <= q ->
  (q <= 5 /\ getRiskRating (SNum (Fin q)) = tier 0
   /\ text (scoreToOdds (SNum (Fin q)) k) = "< 0.1%"
   /\ odds (scoreToOdds (SNum (Fin q)) k) = Some 0.001) \/
  (5 < q <= 15 /\ getRiskRating (SNum (Fin q)) = tier 0
   /\ text (scoreToOdds (SNum (Fin q)) k) = "~0.1–0.5%"
   /\ odds (scoreToOdds (SNum (Fin q)) k) = Some 0.003) \/
  (15 < q <= 30 /\ getRiskRating (SNum (Fin q)) = tier 1
   /\ text (scoreToOdds (SNum (Fin q)) k) = "~0.5–2%"
   /\ odds (scoreToOdds (SNum (Fin q)) k) = Some 0.01) \/
  (30 < q <= 50 /\ getRiskRating (SNum (Fin q)) = tier 2
   /\ text (scoreToOdds (SNum (Fin q)) k) = "~2–5%"
   /\ odds (scoreToOdds (SNum (Fin q)) k) = Some 0.035) \/
  (50 < q <= 70 /\ getRiskRating (SNum (Fin q)) = tier 3
   /\ text (scoreToOdds (SNum (Fin q)) k) = "~5–15%"
   /\ odds (scoreToOdds (SNum (Fin q)) k) = Some 0.1) \/
  (70 < q <= 85 /\ getRiskRating (SNum (Fin q)) = tier 4
   /\ text (scoreToOdds (SNum (Fin q)) k) = "~15–30%"
   /\ odds (scoreToOdds (SNum (Fin q)) k) = Some 0.225) \/
  (85 < q /\ getRiskRating (SNum (Fin q)) = tier 4
   /\ text (scoreToOdds (SNum (Fin q)) k) = "> 30%"
   /\ odds (scoreToOdds (SNum (Fin q)) k) = Some 0.4).
Proof.
  intro H0.
  destruct (Qlt_le_dec 5 q) as [H5 | H5];
    [|left; conjs; [lra | band | band | band]].
  destruct (Qlt_le_dec 15 q) as [H15 | H15];
    [|right; left; conjs; [lra | lra | band | band | band]].
  destruct (Qlt_le_dec 30 q) as [H30 | H30];
    [|do 2 right; left; conjs; [lra | lra | band | band | band]].
  destruct (Qlt_le_dec 50 q) as [H50 | H50];
    [|do 3 right; left; conjs; [lra | lra | band | band | band]].
  destruct (Qlt_le_dec 70 q) as [H70 | H70];
    [|do 4 right; left; conjs; [lra | lra | band | band | band]].
  destruct (Qlt_le_dec 85 q) as [H85 | H85];
    [|do 5 right; left; conjs; [lra | lra | band | band | band]].
  do 6 right. conjs; [lra | | band | band].
  destruct (Qlt_le_dec 100 q) as [H100 | H100]; band.
Qed.

(** The tier follows from the text of the bucket, for every score. *)
Lemma rating_follows_bucket (s : score) (k : string) :
  getRiskRating s = tier_of_bucket (text (scoreToOdds s k)).
Proof.
  destruct s as [| | [| | q |]]; try reflexivity.
  destruct (Qlt_le_dec q 0) as [Hneg | Hpos].
  - unfold getRiskRating, scoreToOdds. cmp. reflexivity.
  - destruct (finite_score_cases k Hpos)
      as [H | [H | [H | [H | [H | [H | H]]]]]];
      destruct H as (_ & -> & -> & _) || destruct H as (_ & _ & -> & -> & _);
      reflexivity.
Qed.

End TableFacts.

Section TableTheorems.

Local Open Scope Q_scope.
Local Open Scope string_scope.

(** X1. "No Data" and "Insufficient data" are returned only for an absent
    or a negative score: [getRiskRating] returns the "No Data" band exactly
    when the score is [null], [undefined] or negative, and [scoreToOdds]
    returns a descriptor without odds in exactly the same cases.  Every
    other number, NaN and +Infinity included, gets one of the five tiers
    and a bucket with odds. *)
Theorem no_data_only_when_absent_or_negative (s : score) (k : string) :
  (getRiskRating s = NO_DATA <-> absent s \/ negative s) /\
  (odds (scoreToOdds s k) = None <-> absent s \/ negative s) /\
  (text (scoreToOdds s k) = "Insufficient data" <-> absent s \/ negative s).
Proof.
  assert (Hyes : absent s \/ negative s ->
                 getRiskRating s = NO_DATA
                 /\ odds (scoreToOdds s k) = None
                 /\ text (scoreToOdds s k) = "Insufficient data").
  { intros [[-> | ->] | [-> | (q & Hq & ->)]]; conjs; try reflexivity;
      unfold getRiskRating, scoreToOdds; cmp; reflexivity. }
  assert (Hno : ~ (absent s \/ negative s) ->
                getRiskRating s <> NO_DATA
                /\ odds (scoreToOdds s k) <> None
                /\ text (scoreToOdds s k) <> "Insufficient data").
  { intro Hn. destruct s as [| | [| | q |]].
    - exfalso. apply Hn. left. left. reflexivity.
    - exfalso. apply Hn. left. right. reflexivity.
    - conjs; intro H; vm_compute in H; discriminate H.
    - exfalso. apply Hn. right. left. reflexivity.
    - destruct (Qlt_le_dec q 0) as [Hneg | Hpos].
      + exfalso. apply Hn. right. right. exists q. split; [exact Hneg | reflexivity].
      + destruct (finite_score_cases k Hpos)
          as [H | [H | [H | [H | [H | [H | H]]]]]];
          (destruct H as (_ & Hr & Ht & Ho) || destruct H as (_ & _ & Hr & Ht & Ho));
          rewrite Hr, Ht, Ho; conjs; intro H; vm_compute in H; discriminate H.
    - conjs; intro H; vm_compute in H; discriminate H. }
  assert (Hdec : (absent s \/ negative s) \/ ~ (absent s \/ negative s)).
  { destruct s as [| | [| | q |]].
    - left. left. left. reflexivity.
    - left. left. right. reflexivity.
    - right. intros [[H | H] | [H | (q & _ & H)]]; discriminate H.
    - left. right. left. reflexivity.
    - destruct (Qlt_le_dec q 0) as [Hneg | Hpos].
      + left. right. right. exists q. split; [exact Hneg | reflexivity].
      + right. intros [[H | H] | [H | (q' & Hq' & H)]]; try discriminate H.
        injection H as ->. lra.
    - right. intros [[H | H] | [H | (q & _ & H)]]; discriminate H. }
  destruct Hdec as [Hy | Hn].
  - destruct (Hyes Hy) as (H1 & H2 & H3). conjs; split; auto.
  - destruct (Hno Hn) as (H1 & H2 & H3).
    conjs; split; intro H; solve [contradiction | exfalso; auto].
Qed.

(** X2. [getRiskRating] is monotone: of two scores that are not negative,
    the higher never gets a tier with a lower bound. *)
Theorem getRiskRating_monotone (q1 q2 : Q) :
  0 <= q1 -> q1 <= q2 ->
  num_le (to_number (max (getRiskRating (SNum (Fin q1)))))
         (to_number (max (getRiskRating (SNum (Fin q2))))) = true.
Proof.
  intros H0 H12.
  assert (H0' : 0 <= q2) by lra.
  destruct (finite_score_cases "" H0)
    as [H | [H | [H | [H | [H | [H | H]]]]]];
    (destruct H as (Ha & -> & _) || destruct H as (Ha & Ha' & -> & _));
    destruct (finite_score_cases "" H0')
      as [H | [H | [H | [H | [H | [H | H]]]]]];
    (destruct H as (Hb & -> & _) || destruct H as (Hb & Hb' & -> & _));
    first [reflexivity | exfalso; lra].
Qed.

Lemma getRiskRating_monotone_witness :
  num_le (to_number (max (getRiskRating (SNum (Fin 15)))))
         (to_number (max (getRiskRating (SNum (Fin 15.5))))) = true.
Proof. apply getRiskRating_monotone; lra. Defined.

(** X3. The odds of [scoreToOdds] never decrease with the score: of two
    scores that are not negative, the higher has odds at least as high. *)
Theorem scoreToOdds_monotone (q1 q2 : Q) (k1 k2 : string) :
  0 <= q1 -> q1 <= q2 ->
  exists o1 o2 : Q,
    odds (scoreToOdds (SNum (Fin q1)) k1) = Some o1 /\
    odds (scoreToOdds (SNum (Fin q2)) k2) = Some o2 /\
    o1 <= o2.
Proof.
  intros H0 H12.
  assert (H0' : 0 <= q2) by lra.
  destruct (finite_score_cases k1 H0)
    as [H | [H | [H | [H | [H | [H | H]]]]]];
    (destruct H as (Ha & _ & _ & ->) || destruct H as (Ha & Ha' & _ & _ & ->));
    destruct (finite_score_cases k2 H0')
      as [H | [H | [H | [H | [H | [H | H]]]]]];
    (destruct H as (Hb & _ & _ & ->) || destruct H as (Hb & Hb' & _ & _ & ->));
    first [ exfalso; lra
          | do 2 eexists; split; [reflexivity | split; [reflexivity | lra]] ].
Qed.

Lemma scoreToOdds_monotone_witness :
  exists o1 o2 : Q,
    odds (scoreToOdds (SNum (Fin 30)) "ERQK") = Some o1 /\
    odds (scoreToOdds (SNum (Fin 30.1)) "WFIR") = Some o2 /\
    o1 <= o2.
Proof. apply scoreToOdds_monotone; lra. Defined.

(** X4. The bucket refines the tier: two scores, of any kind, that
    [scoreToOdds] gives the same text always get the same band from
    [getRiskRating]. *)
Theorem same_bucket_same_tier (s1 s2 : score) (k1 k2 : string) :
  text (scoreToOdds s1 k1) = text (scoreToOdds s2 k2) ->
  getRiskRating s1 = getRiskRating s2.
Proof.
  intro H.
  rewrite (rating_follows_bucket s1 k1), (rating_follows_bucket s2 k2), H.
  reflexivity.
Qed.

Lemma same_bucket_same_tier_witness :
  getRiskRating (SNum (Fin 90)) = getRiskRating (SNum PosInf).
Proof.
  apply same_bucket_same_tier with (k1 := "ERQK") (k2 := "HRCN").
  reflexivity.
Defined.

End TableTheorems.

(* ================================================================== *)
(** * The gauge and the hazard card *)
(* ================================================================== *)

Section ViewTheorems.

Local Open Scope Q_scope.
Local Open Scope string_scope.

(** X5. [RiskGauge] clamps the score it draws: for every score other than
    NaN the normalized score is a finite number between 0 and 100 (0 for an
    absent or negative score, 100 for a score above 100 or +Infinity, the
    score itself in between), and the score arc is rendered exactly when
    the score is a number above 0. *)
Theorem normalizedScore_clamped (s : score) :
  s <> SNum NaN ->
  (exists q : Q, normalizedScore s = Fin q /\ 0 <= q <= 100) /\
  (forall q : Q, 0 <= q <= 100 -> s = SNum (Fin q) -> normalizedScore s = Fin q) /\
  (forall q : Q, 100 < q -> s = SNum (Fin q) -> normalizedScore s = Fin 100) /\
  (score_arc_drawn s = true <->
   s = SNum PosInf \/ exists q : Q, 0 < q /\ s = SNum (Fin q)).
Proof.
  intro Hnan. destruct s as [| | [| | q |]].
  - conjs.
    + exists 0. split; [reflexivity | lra].
    + intros q _ H. discriminate H.
    + intros q _ H. discriminate H.
    + split; [intro H; discriminate H|].
      intros [H | (q & _ & H)]; discriminate H.
  - conjs.
    + exists 0. split; [reflexivity | lra].
    + intros q _ H. discriminate H.
    + intros q _ H. discriminate H.
    + split; [intro H; discriminate H|].
      intros [H | (q & _ & H)]; discriminate H.
  - contradiction Hnan. reflexivity.
  - conjs.
    + exists 0. split; [reflexivity | lra].
    + intros q _ H. discriminate H.
    + intros q _ H. discriminate H.
    + split; [intro H; discriminate H|].
      intros [H | (q & _ & H)]; discriminate H.
  - destruct (Qlt_le_dec q 0) as [Hneg | Hpos];
      [|destruct (Qlt_le_dec 100 q) as [Hbig | Hsmall]].
    + assert (Hn : normalizedScore (SNum (Fin q)) = Fin 0).
      { unfold normalizedScore. cmp. reflexivity. }
      unfold score_arc_drawn. rewrite Hn. conjs.
      * exists 0. split; [reflexivity | lra].
      * intros q' Hq' H. injection H as <-. lra.
      * intros q' Hq' H. injection H as <-. lra.
      * split; [intro H; discriminate H|].
        intros [H | (q' & Hq' & H)]; [discriminate H|].
        injection H as <-. lra.
    + assert (Hn : normalizedScore (SNum (Fin q)) = Fin 100).
      { unfold normalizedScore, Math_min. cmp. reflexivity. }
      unfold score_arc_drawn. rewrite Hn. conjs.
      * exists 100. split; [reflexivity | lra].
      * intros q' Hq' H. injection H as <-. lra.
      * intros q' Hq' H. reflexivity.
      * split; [|reflexivity].
        intros _. right. exists q. split; [lra | reflexivity].
    + assert (Hn : normalizedScore (SNum (Fin q)) = Fin q).
      { unfold normalizedScore, Math_min. cmp. reflexivity. }
      unfold score_arc_drawn. rewrite Hn. conjs.
      * exists q. split; [reflexivity | lra].
      * intros q' Hq' H. injection H as <-. reflexivity.
      * intros q' Hq' H. injection H as <-. lra.
      * unfold num_gt. rewrite num_lt_Fin. split.
        -- intro H. right. exists q. split; [exact H | reflexivity].
        -- intros [H | (q' & Hq' & H)]; [discriminate H|].
           injection H as <-. exact Hq'.
  - conjs.
    + exists 100. split; [reflexivity | lra].
    + intros q _ H. discriminate H.
    + intros q _ H. discriminate H.
    + split; [intros _; left; reflexivity | reflexivity].
Qed.

Lemma normalizedScore_clamped_witness :
  normalizedScore (SNum (Fin 250)) = Fin 100 /\
  normalizedScore (SNum (Fin 42.3)) = Fin 42.3.
Proof.
  assert (H1 : SNum (Fin 250) <> SNum NaN) by discriminate.
  assert (H2 : SNum (Fin 42.3) <> SNum NaN) by discriminate.
  split.
  - destruct (normalizedScore_clamped H1) as (_ & _ & H & _).
    apply (H 250); [lra | reflexivity].
  - destruct (normalizedScore_clamped H2) as (_ & H & _).
    apply (H 42.3); [lra | reflexivity].
Defined.

(** X6. The number in the middle of the gauge: for a finite score that is
    not negative it is the integer nearest to the score, a tie going up;
    for a score between 0 and 100 that integer is between 0 and 100.  The
    dash is shown exactly when the score is absent, negative or NaN. *)
Theorem gauge_text_rounds (s : score) :
  (forall q : Q,
     0 <= q -> s = SNum (Fin q) ->
     exists n : Z,
       gauge_text s = Some (Fin (inject_Z n))
       /\ inject_Z n - (1 # 2) <= q < inject_Z n + (1 # 2)
       /\ (q <= 100 -> (0 <= n <= 100)%Z)) /\
  (gauge_text s = None <-> absent s \/ negative s \/ s = SNum NaN).
Proof.
  split.
  - intros q Hq ->. exists (Qfloor (q + (1 # 2))).
    unfold gauge_text, num_ge. cmp. conjs.
    + reflexivity.
    + pose proof (Qfloor_le (q + (1 # 2))). lra.
    + pose proof (Qlt_floor (q + (1 # 2))) as H.
      rewrite inject_Z_plus in H. change (inject_Z 1) with 1 in H. lra.
    + intro H100. split.
      * assert (H0 : (Qfloor 0 <= Qfloor (q + (1 # 2)))%Z)
          by (apply Qfloor_resp_le; lra).
        exact H0.
      * assert (H1 : (Qfloor (q + (1 # 2)) <= Qfloor (100 + (1 # 2)))%Z)
          by (apply Qfloor_resp_le; lra).
        exact H1.
  - destruct s as [| | [| | q |]].
    + split; [intros _; left; left; reflexivity | reflexivity].
    + split; [intros _; left; right; reflexivity | reflexivity].
    + split; [intros _; right; right; reflexivity | reflexivity].
    + split; [intros _; right; left; left; reflexivity | reflexivity].
    + unfold gauge_text, num_ge.
      destruct (Qlt_le_dec q 0) as [Hneg | Hpos]; cmp.
      * split; [|reflexivity].
        intros _. right. left. right. exists q. split; [exact Hneg | reflexivity].
      * split; [intro H; discriminate H|].
        intros [[H | H] | [[H | (q' & Hq' & H)] | H]]; try discriminate H.
        injection H as <-. lra.
    + split; [intro H; discriminate H|].
      intros [[H | H] | [[H | (q' & Hq' & H)] | H]]; discriminate H.
Qed.

Lemma gauge_text_rounds_witness :
  exists n : Z,
    gauge_text (SNum (Fin 42.5)) = Some (Fin (inject_Z n))
    /\ inject_Z n - (1 # 2) <= 42.5 < inject_Z n + (1 # 2)
    /\ (42.5 <= 100 -> (0 <= n <= 100)%Z).
Proof.
  destruct (gauge_text_rounds (SNum (Fin 42.5))) as (H & _).
  apply H; [lra | reflexivity].
Defined.

(** X7. The badge of a hazard card shows the label of the band that
    [getRiskRating] returns, for every score other than NaN; for NaN the
    card shows "No Data" although the band is "Very High". *)
Theorem badge_text_is_rating_label (s : score) :
  (s <> SNum NaN -> badge_text s = label (getRiskRating s)) /\
  (s = SNum NaN ->
     badge_text s = "No Data" /\ label (getRiskRating s) = "Very High") /\
  (hasData s = false <-> absent s \/ negative s \/ s = SNum NaN).
Proof.
  destruct s as [| | [| | q |]]; conjs;
    try (intros _; reflexivity);
    try (intro H; discriminate H);
    try (intro H; exfalso; apply H; reflexivity);
    try (intros _; split; reflexivity).
  all: try (split; [intros _| reflexivity]).
  - left. left. reflexivity.
  - left. right. reflexivity.
  - right. right. reflexivity.
  - right. left. left. reflexivity.
  - intros _. unfold badge_text, hasData, num_ge.
    destruct (Qlt_le_dec q 0) as [Hneg | Hpos]; cmp; [|reflexivity].
    unfold getRiskRating. cmp. reflexivity.
  - unfold hasData, num_ge.
    destruct (Qlt_le_dec q 0) as [Hneg | Hpos]; cmp.
    + split; [|reflexivity].
      intros _. right. left. right. exists q. split; [exact Hneg | reflexivity].
    + split; [intro H; discriminate H|].
      intros [[H | H] | [[H | (q' & Hq' & H)] | H]]; try discriminate H.
      injection H as <-. lra.
  - split; [intro H; discriminate H|].
    intros [[H | H] | [[H | (q' & Hq' & H)] | H]]; discriminate H.
Qed.

Lemma badge_text_is_rating_label_witness :
  badge_text (SNum (Fin 42.3)) = "Relatively Moderate" /\
  badge_text (SNum NaN) = "No Data".
Proof.
  destruct (badge_text_is_rating_label (SNum (Fin 42.3))) as (H1 & _).
  destruct (badge_text_is_rating_label (SNum NaN)) as (_ & H2 & _).
  split.
  - rewrite H1 by discriminate. reflexivity.
  - apply H2. reflexivity.
Defined.

End ViewTheorems.

(* ================================================================== *)
(** * More on the two service calls *)
(* ================================================================== *)

Section ServiceFacts.

Variable E : env.

(** How the location step ends, read off the answer of the geocoder. *)
Lemma resolve_exit_cases (zip : jsstring) :
  resolve_exit E zip =
  match geocoder E (geocode_url zip) with
  | Rejected e => Thrown e
  | Resolved r =>
      if ok r then
        match json r with
        | Rejected e => Thrown e
        | Resolved data =>
            match matches_of data with
            | None | Some [] => Thrown NO_LOCATION
            | Some (m :: _) =>
                match counties_of (geographies m) with
                | None | Some [] => Thrown NO_COUNTY
                | Some (c :: _) => Returned (make_location m c)
                end
            end
        end
      else Thrown GEOCODING_UNAVAILABLE
  end.
Proof.
  unfold resolve_exit, zipToCountyFips, exit_of. cbn.
  destruct (geocoder E (geocode_url zip)) as [r | e]; cbn; [|reflexivity].
  destruct (ok r); cbn; [|reflexivity].
  destruct (json r) as [d | e]; cbn; [|reflexivity].
  destruct (matches_of d) as [[| m ms] |]; cbn; try reflexivity.
  destruct (counties_of (geographies m)) as [[| c cs] |]; reflexivity.
Qed.

(** How the risk-data step ends, read off the answer of the hazard index. *)
Lemma fetch_exit_cases (countyFips : jsstring) :
  fetch_exit E countyFips =
  match fema E (nri_url countyFips) with
  | Rejected e => Thrown e
  | Resolved r =>
      if ok r then
        match json r with
        | Rejected e => Thrown e
        | Resolved data =>
            match NriCountyData data with
            | None | Some [] => Thrown NO_NRI_DATA
            | Some (first :: _) => Returned first
            end
        end
      else Thrown (FEMA_API_ERROR (status r))
  end.
Proof.
  unfold fetch_exit, fetchNRIData, exit_of. cbn.
  destruct (fema E (nri_url countyFips)) as [r | e]; cbn; [|reflexivity].
  destruct (ok r); cbn; [|reflexivity].
  destruct (json r) as [d | e]; cbn; [|reflexivity].
  destruct (NriCountyData d) as [[| r1 rs] |]; reflexivity.
Qed.

End ServiceFacts.

Section ServiceExtras.

(** X8. The county code that [zipToCountyFips] glues together is taken
    apart again by [fetchNRIData]: when the geocoder's county has a
    two-character STATE and a three-character COUNTY, the request for the
    returned location filters on exactly that STATE and that COUNTY.  For
    any other code the request carries its first five characters, split
    after the second. *)
Theorem nri_request_names_the_county (m : address_match) (c : county_geo) :
  List.length (STATE c) = 2%nat ->
  List.length (COUNTY c) = 3%nat ->
  substring 0 2 (fips (make_location m c)) = STATE c /\
  substring 2 5 (fips (make_location m c)) = COUNTY c /\
  nri_url (fips (make_location m c))
  = (NRI_BASE ++ lit "?$filter=stateCode eq '" ++ STATE c
     ++ lit "' and countyCode eq '" ++ COUNTY c
     ++ lit "'&$select=" ++ join (lit ",") NRI_FIELDS)%list /\
  (forall countyFips : jsstring,
     (substring 0 2 countyFips ++ substring 2 5 countyFips)%list
     = firstn 5 countyFips).
Proof.
  intros Hs Hc.
  assert (H1 : substring 0 2 (fips (make_location m c)) = STATE c).
  { cbn [make_location fips].
    destruct (STATE c) as [| a [| b [| x l]]]; try discriminate Hs.
    reflexivity. }
  assert (H2 : substring 2 5 (fips (make_location m c)) = COUNTY c).
  { cbn [make_location fips].
    destruct (STATE c) as [| a [| b [| x l]]]; try discriminate Hs.
    destruct (COUNTY c) as [| d [| e [| f [| y l]]]]; try discriminate Hc.
    reflexivity. }
  conjs.
  - exact H1.
  - exact H2.
  - unfold nri_url. rewrite H1, H2. reflexivity.
  - intro f. unfold substring.
    destruct f as [| a [| b [| c0 [| d [| e l]]]]]; reflexivity.
Qed.

Lemma nri_request_names_the_county_witness :
  substring 0 2 (fips (make_location beverly_hills la_county)) = lit "06" /\
  substring 2 5 (fips (make_location beverly_hills la_county)) = lit "037".
Proof.
  destruct (@nri_request_names_the_county beverly_hills la_county eq_refl eq_refl)
    as (H1 & H2 & _).
  split; [exact H1 | exact H2].
Defined.

(** X10. A failure of the transport is passed on unchanged by both calls:
    when [fetch] is rejected with an error, or when the status is a success
    and [json()] is rejected with an error, [zipToCountyFips] and
    [fetchNRIData] throw that very error. *)
Theorem transport_errors_pass_through (E : env) (zip countyFips : jsstring)
    (e : js_error) :
  (geocoder E (geocode_url zip) = Rejected e -> resolve_exit E zip = Thrown e) /\
  (forall r, geocoder E (geocode_url zip) = Resolved r ->
             ok r = true -> json r = Rejected e ->
             resolve_exit E zip = Thrown e) /\
  (fema E (nri_url countyFips) = Rejected e -> fetch_exit E countyFips = Thrown e) /\
  (forall r, fema E (nri_url countyFips) = Resolved r ->
             ok r = true -> json r = Rejected e ->
             fetch_exit E countyFips = Thrown e).
Proof.
  rewrite resolve_exit_cases, fetch_exit_cases. conjs.
  - intros ->. reflexivity.
  - intros r -> -> ->. reflexivity.
  - intros ->. reflexivity.
  - intros r -> -> ->. reflexivity.
Qed.

Lemma transport_errors_pass_through_witness :
  resolve_exit geocoder_silent (lit "90210") = Thrown {| message := [] |}.
Proof.
  destruct (transport_errors_pass_through geocoder_silent (lit "90210")
              (lit "06037") {| message := [] |}) as (H & _).
  apply H. reflexivity.
Defined.

End ServiceExtras.

(* ================================================================== *)
(** * More on one run of [handleSearch] *)
(* ================================================================== *)

Section SessionExtras.

(** X9. The geocoder is only ever asked about a validated ZIP: every
    request to it that a run of [handleSearch] sends is the request for
    the trimmed input, that input is exactly five ASCII digits, and the
    whole address of the request is made of ASCII characters. *)
Theorem geocoder_only_asked_about_five_digits (E : env) (st : app_state)
    (z url : jsstring) :
  In (EvGeo url) (trace_of (run E (handleSearch z) st)) ->
  five_digits (trim z) /\
  url = geocode_url (trim z) /\
  Forall (fun c => (c < 128)%N) url.
Proof.
  intro Hin.
  destruct (test_zip (trim z)) eqn:Hz.
  - assert (Hurl : url = geocode_url (trim z)).
    { rewrite (run_handleSearch_valid E z st Hz) in Hin. unfold trace_of in Hin.
      destruct (resolve_exit E (trim z)) as [loc | e];
        [destruct (fetch_exit E (fips loc)) as [record | e]|];
        cbn in Hin;
        repeat (destruct Hin as [Hin | Hin];
                [first [discriminate Hin | injection Hin as <-; reflexivity]|]);
        contradiction Hin. }
    apply test_zip_iff in Hz. conjs; [exact Hz | exact Hurl |].
    subst url. unfold geocode_url.
    apply Forall_app. split; [|apply Forall_app; split].
    + apply Forall_forall. intros c Hc.
      assert (Hb : forallb (fun c => (c <? 128)%N)
                     (lit "https://geocoding.geo.census.gov/geocoder/geographies/onelineaddress?address=")
                   = true) by (vm_compute; reflexivity).
      rewrite forallb_forall in Hb. apply N.ltb_lt. apply Hb. exact Hc.
    + destruct Hz as [_ Hd]. revert Hd. apply Forall_impl.
      intros c [_ Hc]. lia.
    + apply Forall_forall. intros c Hc.
      assert (Hb : forallb (fun c => (c <? 128)%N)
                     (lit "&benchmark=Public_AR_Current&vintage=Current_Current&format=json")
                   = true) by (vm_compute; reflexivity).
      rewrite forallb_forall in Hb. apply N.ltb_lt. apply Hb. exact Hc.
  - rewrite (run_handleSearch_invalid E z st Hz) in Hin.
    destruct Hin as [Hin | []]. discriminate Hin.
Qed.

Lemma geocoder_only_asked_about_five_digits_witness :
  five_digits (trim (lit " 12345")) /\
  geocode_url (lit "12345") = geocode_url (trim (lit " 12345")) /\
  Forall (fun c => (c < 128)%N) (geocode_url (lit "12345")).
Proof.
  apply (@geocoder_only_asked_about_five_digits both_up initial_state
           (lit " 12345") (geocode_url (lit "12345"))).
  vm_compute. do 6 right. left. reflexivity.
Defined.

(** X11. [loading] never stays set after a run: a run that passes
    validation ends with [loading] false, whatever its two steps do, and
    its last action is [setLoading(false)]; a run that fails validation
    leaves [loading] as it found it.  No run changes the text of the
    input. *)
Theorem loading_cleared_at_the_end (E : env) (st : app_state) (z : jsstring) :
  (five_digits (trim z) ->
     loading (state_of (run E (handleSearch z) st)) = false /\
     exists before,
       trace_of (run E (handleSearch z) st) = before ++ [EvSet (setLoading false)]) /\
  (~ five_digits (trim z) ->
     loading (state_of (run E (handleSearch z) st)) = loading st) /\
  zipCode (state_of (run E (handleSearch z) st)) = zipCode st.
Proof.
  destruct (test_zip (trim z)) eqn:Hz.
  - rewrite (run_handleSearch_valid E z st Hz). unfold state_of, trace_of.
    split; [|split].
    + intros _.
      destruct (resolve_exit E (trim z)) as [loc | e];
        [destruct (fetch_exit E (fips loc)) as [record | e]|];
        cbn [fst snd]; (split; [reflexivity|]).
      * exists (reset_calls ++
                [EvGeo (geocode_url (trim z)); EvSet (setLocationInfo (Some loc));
                 EvNri (nri_url (fips loc)); EvSet (setNriData (Some record))]).
        reflexivity.
      * exists (reset_calls ++
                [EvGeo (geocode_url (trim z)); EvSet (setLocationInfo (Some loc));
                 EvNri (nri_url (fips loc));
                 EvSet (setError (Some (shown_message e)))]).
        reflexivity.
      * exists (reset_calls ++
                [EvGeo (geocode_url (trim z));
                 EvSet (setError (Some (shown_message e)))]).
        reflexivity.
    + intro H. apply test_zip_false_iff in H. congruence.
    + destruct (resolve_exit E (trim z)) as [loc | e];
        [destruct (fetch_exit E (fips loc)) as [record | e]|]; reflexivity.
  - rewrite (run_handleSearch_invalid E z st Hz). unfold state_of.
    split; [|split].
    + intro H. apply test_zip_iff in H. congruence.
    + intros _. reflexivity.
    + reflexivity.
Qed.

Lemma loading_cleared_at_the_end_witness :
  loading (state_of (run fema_down (handleSearch (lit "90210")) after_success)) = false /\
  loading (state_of (run both_up (handleSearch (lit "12"))
                       (apply_setter (setLoading true) initial_state))) = true.
Proof.
  assert (H5 : five_digits (trim (lit "90210"))).
  { apply test_zip_iff. reflexivity. }
  assert (H2 : ~ five_digits (trim (lit "12"))).
  { apply test_zip_false_iff. reflexivity. }
  split.
  - destruct (loading_cleared_at_the_end fema_down after_success (lit "90210"))
      as (H & _).
    apply H. exact H5.
  - destruct (loading_cleared_at_the_end both_up
                (apply_setter (setLoading true) initial_state) (lit "12"))
      as (_ & H & _).
    rewrite (H H2). reflexivity.
Defined.

(** X12. A run whose two steps both return ends in success: the error is
    cleared, the location and the record of this run are stored, no card
    is expanded, [hasSearched] is set, [loading] is false, and the results
    block shows that record with that location.  Its requests are the one
    to the geocoder and the one to the hazard index for the returned
    county. *)
Theorem successful_run (E : env) (st : app_state) (z : jsstring)
    (loc : county_location) (record : nri_record) :
  five_digits (trim z) ->
  resolve_exit E (trim z) = Returned loc ->
  fetch_exit E (fips loc) = Returned record ->
  state_of (run E (handleSearch z) st)
  = {| zipCode := zipCode st; loading := false; error := None;
       locationInfo := Some loc; nriData := Some record;
       expandedHazard := None; hasSearched := true |} /\
  results_shown (state_of (run E (handleSearch z) st)) = Some (record, loc) /\
  error_shown (state_of (run E (handleSearch z) st)) = None /\
  requests (trace_of (run E (handleSearch z) st))
  = [EvGeo (geocode_url (trim z)); EvNri (nri_url (fips loc))].
Proof.
  intros Hz Hres Hfetch. apply test_zip_iff in Hz.
  rewrite (run_handleSearch_valid E z st Hz), Hres, Hfetch.
  conjs; reflexivity.
Qed.

Lemma successful_run_witness :
  results_shown (state_of (run both_up (handleSearch (lit "90210")) initial_state))
  = Some (la_record, make_location beverly_hills la_county).
Proof.
  assert (H5 : five_digits (trim (lit "90210"))).
  { apply test_zip_iff. reflexivity. }
  destruct (@successful_run both_up initial_state (lit "90210")
              (make_location beverly_hills la_county) la_record H5 eq_refl eq_refl)
    as (_ & H & _).
  exact H.
Defined.

(** X13. A run whose location step returns and whose risk-data step throws
    keeps the location it resolved but stores no record: the results block
    is not shown, the error is the message of the thrown error (the generic
    message for an empty one), and both requests were sent. *)
Theorem failed_fetch_keeps_location (E : env) (st : app_state) (z : jsstring)
    (loc : county_location) (e : js_error) :
  five_digits (trim z) ->
  resolve_exit E (trim z) = Returned loc ->
  fetch_exit E (fips loc) = Thrown e ->
  locationInfo (state_of (run E (handleSearch z) st)) = Some loc /\
  nriData (state_of (run E (handleSearch z) st)) = None /\
  results_shown (state_of (run E (handleSearch z) st)) = None /\
  error (state_of (run E (handleSearch z) st))
  = Some (if truthy (message e) then message e else GENERIC_ERROR) /\
  requests (trace_of (run E (handleSearch z) st))
  = [EvGeo (geocode_url (trim z)); EvNri (nri_url (fips loc))].
Proof.
  intros Hz Hres Hfetch. apply test_zip_iff in Hz.
  rewrite (run_handleSearch_valid E z st Hz), Hres, Hfetch.
  conjs; reflexivity.
Qed.

Lemma failed_fetch_keeps_location_witness :
  locationInfo (state_of (run fema_empty (handleSearch (lit "90210")) after_success))
  = Some (make_location beverly_hills la_county) /\
  nriData (state_of (run fema_empty (handleSearch (lit "90210")) after_success)) = None.
Proof.
  assert (H5 : five_digits (trim (lit "90210"))).
  { apply test_zip_iff. reflexivity. }
  destruct (@failed_fetch_keeps_location fema_empty after_success (lit "90210")
              (make_location beverly_hills la_county) NO_NRI_DATA H5 eq_refl eq_refl)
    as (H1 & H2 & _).
  split; [exact H1 | exact H2].
Defined.

(** The error a run that passed validation stores. *)
Lemma error_after_valid_run (E : env) (st : app_state) (z : jsstring) :
  test_zip (trim z) = true ->
  error (state_of (run E (handleSearch z) st)) =
  match resolve_exit E (trim z) with
  | Thrown e => Some (shown_message e)
  | Returned loc =>
      match fetch_exit E (fips loc) with
      | Thrown e => Some (shown_message e)
      | Returned _ => None
      end
  end.
Proof.
  intro Hz. rewrite (run_handleSearch_valid E z st Hz).
  destruct (resolve_exit E (trim z)) as [loc | e];
    [destruct (fetch_exit E (fips loc)) as [record | e]|]; reflexivity.
Qed.

(** X14. Each failure the source defines reaches the user word for word.
    For a validated ZIP: a geocoder status outside 200-299 ends the run
    with "Geocoding service unavailable"; no address match, with "Could not
    find location for this ZIP code. Please check and try again."; a first
    match without county, with "Could not determine county for this ZIP
    code."; a hazard-index status outside 200-299, with "FEMA API error: " followed
    by the status; no record, with "No NRI data found for this county.".
    The generic message is stored only for a thrown error whose message is
    empty or is that very text. *)
Theorem source_errors_reach_the_user (E : env) (st : app_state) (z : jsstring) :
  five_digits (trim z) ->
  (forall r, geocoder E (geocode_url (trim z)) = Resolved r -> ok r = false ->
     error (state_of (run E (handleSearch z) st))
     = Some (lit "Geocoding service unavailable")) /\
  (forall r data,
     geocoder E (geocode_url (trim z)) = Resolved r -> ok r = true ->
     json r = Resolved data ->
     matches_of data = None \/ matches_of data = Some [] ->
     error (state_of (run E (handleSearch z) st))
     = Some (lit "Could not find location for this ZIP code. Please check and try again.")) /\
  (forall r data m ms,
     geocoder E (geocode_url (trim z)) = Resolved r -> ok r = true ->
     json r = Resolved data ->
     matches_of data = Some (m :: ms) ->
     counties_of (geographies m) = None \/ counties_of (geographies m) = Some [] ->
     error (state_of (run E (handleSearch z) st))
     = Some (lit "Could not determine county for this ZIP code.")) /\
  (forall loc r,
     resolve_exit E (trim z) = Returned loc ->
     fema E (nri_url (fips loc)) = Resolved r -> ok r = false ->
     error (state_of (run E (handleSearch z) st))
     = Some (lit "FEMA API error: " ++ of_N (status r))) /\
  (forall loc r data,
     resolve_exit E (trim z) = Returned loc ->
     fema E (nri_url (fips loc)) = Resolved r -> ok r = true ->
     json r = Resolved data ->
     NriCountyData data = None \/ NriCountyData data = Some [] ->
     error (state_of (run E (handleSearch z) st))
     = Some (lit "No NRI data found for this county.")) /\
  (error (state_of (run E (handleSearch z) st)) = Some GENERIC_ERROR ->
   exists e,
     (resolve_exit E (trim z) = Thrown e
      \/ exists loc, resolve_exit E (trim z) = Returned loc
                     /\ fetch_exit E (fips loc) = Thrown e)
     /\ (message e = [] \/ message e = GENERIC_ERROR)).
Proof.
  intro Hz. apply test_zip_iff in Hz.
  rewrite (error_after_valid_run E st z Hz). conjs.
  - intros r Hr Hok. rewrite resolve_exit_cases, Hr, Hok. reflexivity.
  - intros r data Hr Hok Hj Hm. rewrite resolve_exit_cases, Hr, Hok, Hj.
    destruct Hm as [-> | ->]; reflexivity.
  - intros r data m ms Hr Hok Hj Hm Hc.
    rewrite resolve_exit_cases, Hr, Hok, Hj, Hm.
    destruct Hc as [-> | ->]; reflexivity.
  - intros loc r Hres Hr Hok.
    rewrite Hres, fetch_exit_cases, Hr, Hok. reflexivity.
  - intros loc r data Hres Hr Hok Hj Hm.
    rewrite Hres, fetch_exit_cases, Hr, Hok, Hj.
    destruct Hm as [-> | ->]; reflexivity.
  - assert (Hshown : forall e, Some (shown_message e) = Some GENERIC_ERROR ->
                               message e = [] \/ message e = GENERIC_ERROR).
    { intros e H. injection H as H. unfold shown_message, or_else in H.
      destruct (message e) as [| c m]; [left; reflexivity | right; exact H]. }
    destruct (resolve_exit E (trim z)) as [loc | e] eqn:Hres.
    + destruct (fetch_exit E (fips loc)) as [record | e] eqn:Hfetch.
      * intro H. discriminate H.
      * intro H. exists e. split; [|apply Hshown; exact H].
        right. exists loc. split; [reflexivity | exact Hfetch].
    + intro H. exists e. split; [left; reflexivity | apply Hshown; exact H].
Qed.

Lemma source_errors_reach_the_user_witness :
  error (state_of (run geocoder_down (handleSearch (lit "90210")) initial_state))
  = Some (lit "Geocoding service unavailable") /\
  error (state_of (run fema_down (handleSearch (lit "90210")) initial_state))
  = Some (lit "FEMA API error: 500").
Proof.
  assert (H5 : five_digits (trim (lit "90210"))).
  { apply test_zip_iff. reflexivity. }
  split.
  - destruct (@source_errors_reach_the_user geocoder_down initial_state
                (lit "90210") H5) as (H & _).
    apply (H geo_down); reflexivity.
  - destruct (@source_errors_reach_the_user fema_down initial_state
                (lit "90210") H5) as (_ & _ & _ & H & _).
    apply (H (make_location beverly_hills la_county) nri_down); reflexivity.
Defined.

(** X15. What is typed decides what is looked up.  The text [onChange]
    stores passes the validation of [handleSearch] exactly when the typed
    value holds at least five digits, and the ZIP then sent to the geocoder
    is made of the first five digits of the typed value; with fewer digits
    the run is rejected by validation. *)
Theorem typed_text_decides_lookup (E : env) (st : app_state) (value : jsstring) :
  (five_digits (trim (sanitize value))
   <-> (5 <= List.length (filter isDigit value))%nat) /\
  ((5 <= List.length (filter isDigit value))%nat ->
   In (EvGeo (geocode_url (firstn 5 (filter isDigit value))))
      (trace_of (run E (handleSearch (sanitize value)) st))) /\
  ((List.length (filter isDigit value) < 5)%nat ->
   rejected_by_validation E st (sanitize value)).
Proof.
  assert (Htrim : trim (sanitize value) = sanitize value)
    by apply typed_zip_is_validated_as_typed.
  assert (Hiff : five_digits (sanitize value)
                 <-> (5 <= List.length (filter isDigit value))%nat).
  { unfold five_digits, sanitize, slice0, strip_non_digits.
    rewrite length_firstn. split.
    - intros [H _]. lia.
    - intro H. split; [lia|]. apply onChange_keeps_digits. }
  rewrite Htrim. conjs.
  - exact Hiff.
  - intro H. apply Hiff in H. apply test_zip_iff in H.
    rewrite <- Htrim in H.
    rewrite (run_handleSearch_valid E (sanitize value) st H), Htrim.
    unfold trace_of, sanitize, slice0, strip_non_digits.
    destruct (resolve_exit E _) as [loc | e];
      [destruct (fetch_exit E (fips loc)) as [record | e]|];
      cbn; do 6 right; left; reflexivity.
  - intro H. assert (Hn : ~ five_digits (sanitize value)).
    { intro H5. apply Hiff in H5. lia. }
    apply test_zip_false_iff in Hn. rewrite <- Htrim in Hn.
    unfold rejected_by_validation.
    rewrite (run_handleSearch_invalid E (sanitize value) st Hn).
    split; reflexivity.
Qed.

Lemma typed_text_decides_lookup_witness :
  In (EvGeo (geocode_url (lit "90210")))
     (trace_of (run both_up (handleSearch (sanitize (lit "9 02-10 xyz 77")))
                  initial_state)) /\
  rejected_by_validation both_up initial_state (sanitize (lit "ab 12 cd")).
Proof.
  destruct (typed_text_decides_lookup both_up initial_state (lit "9 02-10 xyz 77"))
    as (_ & H1 & _).
  destruct (typed_text_decides_lookup both_up initial_state (lit "ab 12 cd"))
    as (_ & _ & H2).
  split.
  - apply H1. vm_compute. lia.
  - apply H2. vm_compute. lia.
Defined.

(** X16. After any submission the get-started block is gone: whatever the
    input, the services and the state before, the state a run of
    [handleSearch] leaves does not satisfy the condition under which the
    empty state is rendered. *)
Theorem empty_state_gone_after_submission (E : env) (st : app_state)
    (z : jsstring) :
  empty_state_shown (state_of (run E (handleSearch z) st)) = false.
Proof.
  destruct (test_zip (trim z)) eqn:Hz.
  - rewrite (run_handleSearch_valid E z st Hz). unfold state_of, empty_state_shown.
    destruct (resolve_exit E (trim z)) as [loc | e];
      [destruct (fetch_exit E (fips loc)) as [record | e]|];
      cbn; rewrite ?andb_false_r; reflexivity.
  - rewrite (run_handleSearch_invalid E z st Hz). unfold state_of, empty_state_shown.
    cbn. rewrite ?andb_false_r. reflexivity.
Qed.

End SessionExtras.

(* ================================================================== *)
(** * What holds after any sequence of user actions *)
(* ================================================================== *)

(** Take a tree of [handleSearch] apart, answer by answer. *)
Ltac walk :=
  repeat (cbn;
          match goal with
          | |- True => exact I
          | |- ?a = ?a => reflexivity
          | |- _ /\ _ => split
          | |- forall _, _ => intro
          | |- context [await ?o] => destruct o
          | |- context [if negb (ok ?r) then _ else _] => destruct (ok r)
          | |- context [matches_of ?d] => destruct (matches_of d) as [[| ? ?] |]
          | |- context [counties_of ?g] => destruct (counties_of g) as [[| ? ?] |]
          | |- context [NriCountyData ?d] => destruct (NriCountyData d) as [[| ? ?] |]
          end).

Section LoopFacts.

Lemma handleSearch_keeps_zip (z : jsstring) : keeps_zip (handleSearch z).
Proof.
  unfold handleSearch. destruct (test_zip (trim z)); cbn [negb].
  - unfold lookup, zipToCountyFips, fetchNRIData, on_error, call. walk.
  - cbn. split; exact I.
Qed.

Lemma handleSearch_balanced (z : jsstring) : balanced false (handleSearch z).
Proof.
  unfold handleSearch. destruct (test_zip (trim z)); cbn [negb].
  - unfold lookup, zipToCountyFips, fetchNRIData, on_error, call. walk.
  - reflexivity.
Qed.

Lemma zipCode_apply_setter (u : setter) (st : app_state) :
  match u with setZipCode _ => False | _ => True end ->
  zipCode (apply_setter u st) = zipCode st.
Proof. destruct u; intro H; [contradiction H | reflexivity ..]. Qed.

Lemma loading_apply_setter (u : setter) (st : app_state) :
  loading (apply_setter u st)
  = match u with setLoading b => b | _ => loading st end.
Proof. destruct u; reflexivity. Qed.

(** Up to its next [await], a tree that keeps the ZIP leaves the input's
    text alone, and what it suspends on keeps the ZIP too. *)
Lemma advance_keeps_zip (p : proc unit) (st : app_state) :
  keeps_zip p ->
  zipCode (fst (advance p st)) = zipCode st /\
  match snd (advance p st) with
  | Some t => tail_keeps_zip t
  | None => True
  end.
Proof.
  revert st.
  induction p as [a | e | u k IH | url k IH | url k IH]; intros st Hk; cbn in *.
  - split; [reflexivity | exact I].
  - split; [reflexivity | exact I].
  - destruct Hk as [Hu Hk].
    destruct (IH (apply_setter u st) Hk) as [Hz Ht].
    rewrite Hz, (zipCode_apply_setter u st Hu). split; [reflexivity | exact Ht].
  - split; [reflexivity | exact Hk].
  - split; [reflexivity | exact Hk].
Qed.

(** Up to its next [await], a balanced tree either ends with [loading]
    cleared or suspends with [loading] set on a balanced tail. *)
Lemma advance_balanced (p : proc unit) (st : app_state) :
  balanced (loading st) p ->
  match snd (advance p st) with
  | Some t => loading (fst (advance p st)) = true /\ tail_balanced t
  | None => loading (fst (advance p st)) = false
  end.
Proof.
  revert st.
  induction p as [a | e | u k IH | url k IH | url k IH]; intros st Hb; cbn in *.
  - exact Hb.
  - exact Hb.
  - apply IH. rewrite loading_apply_setter. exact Hb.
  - exact Hb.
  - exact Hb.
Qed.

Lemma Forall_remove_nth {A : Type} (P : A -> Prop) (n : nat) (l : list A) :
  Forall P l -> Forall P (remove_nth n l).
Proof.
  revert n. induction l as [| a l IH]; intros n H.
  - destruct n; constructor.
  - inversion_clear H. destruct n; cbn.
    + assumption.
    + constructor; [assumption | apply IH; assumption].
Qed.

End LoopFacts.

Section LoopTheorems.

Lemma start_zip_invariant (p : proc unit) (w : world) :
  keeps_zip p -> zip_invariant w -> zip_invariant (start p w).
Proof.
  intros Hp [Hz Hts]. unfold start, zip_invariant.
  destruct (advance_keeps_zip p (ui w) Hp) as [Hzip Htail].
  destruct (advance p (ui w)) as [st' [t |]]; cbn in *.
  - rewrite Hzip. split; [exact Hz|].
    apply Forall_app. split; [exact Hts | constructor; [exact Htail | constructor]].
  - rewrite Hzip. split; [exact Hz | exact Hts].
Qed.

Lemma step_zip_invariant (w : world) (i : input) :
  zip_invariant w -> zip_invariant (step w i).
Proof.
  intro Hw. destruct i as [value | | key | n o | n o]; cbn [step].
  - destruct Hw as [_ Hts]. unfold start, onChange, call. cbn.
    split; [apply onChange_keeps_digits | exact Hts].
  - destruct (loading (ui w)); [exact Hw|].
    apply start_zip_invariant; [apply handleSearch_keeps_zip | exact Hw].
  - apply start_zip_invariant; [|exact Hw].
    unfold handleKeyDown.
    destruct (list_eq_dec N.eq_dec key (lit "Enter"));
      [apply handleSearch_keeps_zip | exact I].
  - destruct (nth_error (inflight w) n) as [[url k | url k] |] eqn:Hn; try exact Hw.
    destruct Hw as [Hz Hts]. unfold resume.
    apply start_zip_invariant.
    + apply nth_error_In in Hn. rewrite Forall_forall in Hts.
      exact (Hts _ Hn o).
    + split; [exact Hz | apply Forall_remove_nth; exact Hts].
  - destruct (nth_error (inflight w) n) as [[url k | url k] |] eqn:Hn; try exact Hw.
    destruct Hw as [Hz Hts]. unfold resume.
    apply start_zip_invariant.
    + apply nth_error_In in Hn. rewrite Forall_forall in Hts.
      exact (Hts _ Hn o).
    + split; [exact Hz | apply Forall_remove_nth; exact Hts].
Qed.

Lemma steps_zip_invariant (ins : list input) (w : world) :
  zip_invariant w -> zip_invariant (steps w ins).
Proof.
  revert w. unfold steps.
  induction ins as [| i ins IH]; intros w Hw; cbn.
  - exact Hw.
  - apply IH. apply step_zip_invariant. exact Hw.
Qed.

(** X17. Whatever the user types, clicks and presses, and whatever and
    whenever the services answer, the text of the ZIP input is made of
    ASCII digits only and is at most five long: nothing but [onChange]
    ever writes it.  So [handleSearch] always validates the text exactly
    as the input holds it. *)
Theorem zip_input_holds_digits (ins : list input) :
  Forall ascii_digit (zipCode (ui (steps initial_world ins))) /\
  (List.length (zipCode (ui (steps initial_world ins))) <= 5)%nat /\
  trim (zipCode (ui (steps initial_world ins)))
  = zipCode (ui (steps initial_world ins)).
Proof.
  assert (H : zip_invariant (steps initial_world ins)).
  { apply steps_zip_invariant. split; [split|]; cbn.
    - constructor.
    - lia.
    - constructor. }
  destruct H as [[Hd Hl] _]. conjs.
  - exact Hd.
  - exact Hl.
  - apply trim_digits. exact Hd.
Qed.

Lemma start_single_session (p : proc unit) (w : world) :
  inflight w = [] ->
  balanced (loading (ui w)) p ->
  single_session (start p w).
Proof.
  intros Hnil Hb. unfold start, single_session.
  pose proof (advance_balanced p (ui w) Hb) as H.
  destruct (advance p (ui w)) as [st' [t |]]; cbn in *.
  - right. exists t. rewrite Hnil. destruct H as [Hl Ht].
    split; [reflexivity | split; [exact Hl | exact Ht]].
  - left. split; [exact Hnil | exact H].
Qed.

Lemma step_single_session (w : world) (i : input) :
  single_session w ->
  presses_enter i && loading (ui w) = false ->
  single_session (step w i).
Proof.
  intros Hw Hpolite. destruct i as [value | | key | n o | n o]; cbn [step].
  - unfold start, onChange, call. cbn.
    destruct Hw as [[Hnil Hl] | (t & Ht & Hl & Hb)].
    + left. split; assumption.
    + right. exists t. split; [exact Ht | split; [exact Hl | exact Hb]].
  - destruct (loading (ui w)) eqn:Hl; [exact Hw|].
    destruct Hw as [[Hnil _] | (t & _ & Hl' & _)]; [|congruence].
    apply start_single_session; [exact Hnil|].
    rewrite Hl. apply handleSearch_balanced.
  - unfold handleKeyDown. cbn [presses_enter] in Hpolite.
    destruct (list_eq_dec N.eq_dec key (lit "Enter")) as [_ | _].
    + cbn in Hpolite.
      destruct Hw as [[Hnil _] | (t & _ & Hl' & _)]; [|congruence].
      apply start_single_session; [exact Hnil|].
      rewrite Hpolite. apply handleSearch_balanced.
    + unfold start. cbn. destruct w. exact Hw.
  - destruct Hw as [[Hnil Hl] | (t & Ht & Hl & Hb)].
    + rewrite Hnil. destruct n; cbn; left; split; assumption.
    + rewrite Ht. destruct n as [| n]; cbn.
      * destruct t as [url k | url k].
        -- unfold resume. apply start_single_session.
           ++ cbn. rewrite Ht. reflexivity.
           ++ cbn. rewrite Hl. apply Hb.
        -- right. exists (AwaitNri url k).
           split; [exact Ht | split; [exact Hl | exact Hb]].
      * destruct n; cbn; right; exists t;
          (split; [exact Ht | split; [exact Hl | exact Hb]]).
  - destruct Hw as [[Hnil Hl] | (t & Ht & Hl & Hb)].
    + rewrite Hnil. destruct n; cbn; left; split; assumption.
    + rewrite Ht. destruct n as [| n]; cbn.
      * destruct t as [url k | url k].
        -- right. exists (AwaitGeo url k).
           split; [exact Ht | split; [exact Hl | exact Hb]].
        -- unfold resume. apply start_single_session.
           ++ cbn. rewrite Ht. reflexivity.
           ++ cbn. rewrite Hl. apply Hb.
      * destruct n; cbn; right; exists t;
          (split; [exact Ht | split; [exact Hl | exact Hb]]).
Qed.

Lemma steps_single_session (ins : list input) (w : world) :
  single_session w ->
  never_enter_while_loading w ins = true ->
  single_session (steps w ins).
Proof.
  revert w. unfold steps.
  induction ins as [| i ins IH]; intros w Hw Hp; cbn in *.
  - exact Hw.
  - apply andb_true_iff in Hp. destruct Hp as [Hi Hrest].
    apply negb_true_iff in Hi.
    apply IH; [apply step_single_session; assumption | exact Hrest].
Qed.

(** X18. With the button as the gate, sessions never overlap: after any
    sequence of user actions and answers in which Enter is never pressed
    while [loading] is set, at most one session is in flight, and
    [loading] is set exactly while one is. *)
Theorem one_session_without_enter_while_loading (ins : list input) :
  never_enter_while_loading initial_world ins = true ->
  (List.length (inflight (steps initial_world ins)) <= 1)%nat /\
  (loading (ui (steps initial_world ins)) = true
   <-> List.length (inflight (steps initial_world ins)) = 1%nat).
Proof.
  intro Hp.
  assert (H : single_session (steps initial_world ins)).
  { apply steps_single_session; [|exact Hp]. left. split; reflexivity. }
  destruct H as [[Hnil Hl] | (t & Ht & Hl & _)].
  - rewrite Hnil, Hl. cbn. split; [lia|]. split; intro H; discriminate H.
  - rewrite Ht, Hl. cbn. split; [lia|]. split; reflexivity.
Qed.

Lemma one_session_without_enter_while_loading_witness :
  (List.length
     (inflight (steps initial_world
                  [Typed (lit "90210"); Click; Click; KeyDown (lit "x");
                   GeoSettled 0 (Resolved geo_found); Click])) <= 1)%nat.
Proof.
  apply (one_session_without_enter_while_loading
           [Typed (lit "90210"); Click; Click; KeyDown (lit "x");
            GeoSettled 0 (Resolved geo_found); Click]).
  vm_compute. reflexivity.
Defined.

End LoopTheorems.

(* ================================================================== *)
(** * What a run takes from the state before it, and what the cards read *)
(* ================================================================== *)

Section IndependenceTheorems.

Local Open Scope string_scope.

Lemma reset_forgets (st1 st2 : app_state) :
  zipCode st1 = zipCode st2 -> reset st1 = reset st2.
Proof. intro H. unfold reset. cbn. rewrite H. reflexivity. Qed.

(** X19. A validated submission takes nothing from the session before it:
    two runs of [handleSearch] on the same input against the same
    services, started in two states that agree on the text of the input,
    send the same requests, call the same setters and end in the same
    state, whatever error, location, record, expanded card and flags the
    two states held. *)
Theorem validated_run_forgets_previous_state (E : env) (z : jsstring)
    (st1 st2 : app_state) :
  five_digits (trim z) ->
  zipCode st1 = zipCode st2 ->
  run E (handleSearch z) st1 = run E (handleSearch z) st2.
Proof.
  intros Hz Hzip. apply test_zip_iff in Hz.
  rewrite !(run_handleSearch_valid E z _ Hz), (@reset_forgets st1 st2 Hzip).
  reflexivity.
Qed.

Lemma validated_run_forgets_previous_state_witness :
  run fema_down (handleSearch (lit "90210")) after_success
  = run fema_down (handleSearch (lit "90210"))
      (apply_setter (setZipCode (lit "90210")) initial_state).
Proof.
  apply validated_run_forgets_previous_state.
  - apply test_zip_iff. reflexivity.
  - reflexivity.
Defined.

(** X20. Every property of the record that the hazard cards, the summary
    and the results header read is one that [fetchNRIData] asks the
    hazard index to select: the four properties of each of the five
    hazards, the composite scores and ratings, [county] and [state]. *)
Theorem every_field_read_is_requested :
  Forall (fun key => Forall (fun f => In (lit f) NRI_FIELDS) (hazard_fields key))
         HAZARD_KEYS /\
  Forall (fun f => In (lit f) NRI_FIELDS) summary_fields.
Proof.
  assert (Hdec : forall f, existsb (fun g => if list_eq_dec N.eq_dec (lit f) g
                                              then true else false) NRI_FIELDS = true ->
                     In (lit f) NRI_FIELDS).
  { intros f H. apply existsb_exists in H. destruct H as (g & Hg & Heq).
    destruct (list_eq_dec N.eq_dec (lit f) g) as [-> | _];
      [exact Hg | discriminate Heq]. }
  split.
  - repeat (apply Forall_cons;
            [repeat (apply Forall_cons; [apply Hdec; vm_compute; reflexivity|]);
             apply Forall_nil|]).
    apply Forall_nil.
  - repeat (apply Forall_cons; [apply Hdec; vm_compute; reflexivity|]).
    apply Forall_nil.
Qed.

End IndependenceTheorems.

Section CompletionTheorems.

(** X21. A session is over after at most two answers.  From a state with
    nothing in flight and [loading] cleared, a click followed by the
    answers of the services to the requests in flight (the geocoder's, then
    the hazard index's if it is asked) leaves nothing in flight, and the
    component is in the state the same [handleSearch] reaches when it runs
    to its end without interruption. *)
Theorem click_completes_in_two_answers (E : env) (w : world) :
  inflight w = [] ->
  loading (ui w) = false ->
  drain E 2 (step w Click)
  = {| ui := state_of (run E (handleSearch (zipCode (ui w))) (ui w));
       inflight := [] |}.
Proof.
  intros Hnil Hl. cbn [step]. rewrite Hl.
  destruct (test_zip (trim (zipCode (ui w)))) eqn:Hz.
  - rewrite (run_handleSearch_valid E _ (ui w) Hz).
    rewrite resolve_exit_cases.
    unfold start, handleSearch. rewrite Hz, Hnil. cbn [negb].
    unfold lookup, zipToCountyFips, fetchNRIData, on_error, call. cbn.
    unfold resume, start. cbn.
    destruct (geocoder E (geocode_url (trim (zipCode (ui w))))) as [r | e];
      cbn; [|reflexivity].
    destruct (ok r); cbn; [|reflexivity].
    destruct (json r) as [d | e]; cbn; [|reflexivity].
    destruct (matches_of d) as [[| m ms] |]; cbn; try reflexivity.
    destruct (counties_of (geographies m)) as [[| c cs] |]; cbn; try reflexivity.
    rewrite fetch_exit_cases.
    unfold resume, start. cbn.
    destruct (fema E (nri_url (STATE c ++ COUNTY c))) as [r' | e]; cbn; [|reflexivity].
    destruct (ok r'); cbn; [|reflexivity].
    destruct (json r') as [d' | e]; cbn; [|reflexivity].
    destruct (NriCountyData d') as [[| r1 rs] |]; reflexivity.
  - rewrite (run_handleSearch_invalid E _ (ui w) Hz).
    unfold start, handleSearch. rewrite Hz, Hnil. reflexivity.
Qed.

Lemma click_completes_in_two_answers_witness :
  ui (drain both_up 2
        (step (steps initial_world [Typed (lit "90210")]) Click))
  = after_success.
Proof.
  rewrite (@click_completes_in_two_answers both_up
             (steps initial_world [Typed (lit "90210")]) eq_refl eq_refl).
  reflexivity.
Defined.

End CompletionTheorems.

(* ================================================================== *)
(** * The text a submission validates *)
(* ================================================================== *)

Section SubmissionTheorems.

(** C3.  Whatever has been typed, clicked, pressed and answered before,
    the text the ZIP input holds when a submission is made is judged as
    follows: when it is not exactly five ASCII digits, the run of
    [handleSearch] only stores the validation message as the error and
    sends no request, neither to the geocoder nor to the hazard index;
    when it is exactly five ASCII digits, validation passes and, after the
    reset, the geocoder is asked about that text. *)
Theorem submitted_zip_is_validated (ins : list input) (E : env) :
  (~ five_digits (zipCode (ui (steps initial_world ins))) ->
     rejected_by_validation E (ui (steps initial_world ins))
       (zipCode (ui (steps initial_world ins)))
     /\ trace_of (run E (handleSearch (zipCode (ui (steps initial_world ins))))
                    (ui (steps initial_world ins)))
        = [EvSet (setError (Some INVALID_ZIP))]) /\
  (five_digits (zipCode (ui (steps initial_world ins))) ->
     resolver_invoked E (ui (steps initial_world ins))
       (zipCode (ui (steps initial_world ins)))
     /\ exists rest,
          trace_of (run E (handleSearch (zipCode (ui (steps initial_world ins))))
                      (ui (steps initial_world ins)))
          = reset_calls
            ++ EvGeo (geocode_url (zipCode (ui (steps initial_world ins)))) :: rest).
Proof.
  assert (Hinv : zip_invariant (steps initial_world ins)).
  { apply steps_zip_invariant. split; [split|]; cbn.
    - constructor.
    - lia.
    - constructor. }
  destruct Hinv as [[Hd _] _].
  pose proof (trim_digits Hd) as Htrim.
  set (w := steps initial_world ins) in *.
  set (z := zipCode (ui w)) in *.
  split.
  - intro Hn. apply test_zip_false_iff in Hn. rewrite <- Htrim in Hn.
    unfold rejected_by_validation.
    rewrite (run_handleSearch_invalid E z (ui w) Hn). conjs; reflexivity.
  - intro H5. apply test_zip_iff in H5. rewrite <- Htrim in H5.
    assert (Htr : exists rest,
               trace_of (run E (handleSearch z) (ui w))
               = reset_calls ++ EvGeo (geocode_url z) :: rest).
    { rewrite (run_handleSearch_valid E z (ui w) H5), Htrim. unfold trace_of.
      destruct (resolve_exit E z) as [loc | e];
        [destruct (fetch_exit E (fips loc)) as [record | e]|];
        cbn [snd]; eexists; reflexivity. }
    split; [|exact Htr].
    destruct Htr as [rest Hrest]. exists z. rewrite Hrest.
    apply in_or_app. right. left. reflexivity.
Qed.

Lemma submitted_zip_is_validated_witness :
  rejected_by_validation both_up
    (ui (steps initial_world [Typed (lit "1234")])) (lit "1234") /\
  rejected_by_validation both_up
    (ui (steps initial_world [Typed (lit "abcde")])) [] /\
  resolver_invoked both_up
    (ui (steps initial_world [Typed (lit "90210")])) (lit "90210") /\
  resolver_invoked zip_unknown
    (ui (steps initial_world
           [Typed (lit "90210"); Click; GeoSettled 0 (Resolved geo_found);
            NriSettled 0 (Resolved nri_found); Typed (lit "00000")]))
    (lit "00000").
Proof.
  conjs.
  - destruct (submitted_zip_is_validated [Typed (lit "1234")] both_up)
      as (H & _).
    apply H. intros [Hlen _]. discriminate Hlen.
  - destruct (submitted_zip_is_validated [Typed (lit "abcde")] both_up)
      as (H & _).
    apply H. intros [Hlen _]. discriminate Hlen.
  - destruct (submitted_zip_is_validated [Typed (lit "90210")] both_up)
      as (_ & H).
    apply H. apply test_zip_iff. reflexivity.
  - destruct (submitted_zip_is_validated
                [Typed (lit "90210"); Click; GeoSettled 0 (Resolved geo_found);
                 NriSettled 0 (Resolved nri_found); Typed (lit "00000")]
                zip_unknown) as (_ & H).
    apply H. apply test_zip_iff. reflexivity.
Defined.

End SubmissionTheorems.
